(** * upgradinatorr: selection, reconciliation and reporting

    A shallow embedding of [modules/upgradinatorr.py].  Python values that
    the script inspects dynamically (truthiness, subscripting, dictionary
    keys) are kept as a small value type; calls to the remote server, log
    lines and the webhook are recorded in a trace, and an exception ends
    the computation with the trace produced so far. *)

From Stdlib Require Import ZArith Lia.
From stdpp Require Import base list strings countable gmap.

Local Open Scope string_scope.
Local Open Scope list_scope.
Local Set Warnings "-register-all,-clear-no-such-hyp".

(** ** Python values, truthiness and subscripting *)

Inductive PyVal : Type :=
| PyNone
| PyBool (b : bool)
| PyInt (n : Z)
| PyStr (s : string)
| PyList (l : list PyVal)
| PyDict (d : list (string * PyVal)).

Inductive Exn : Type :=
| TypeError
| KeyError (key : string)
| AttributeError
| UnboundLocalError (var : string)
| RemoteError (msg : string)
| SystemExit (code : option Z).

Inductive Outcome (A : Type) : Type :=
| Ok (a : A)
| Raise (e : Exn).
Arguments Ok {A} a.
Arguments Raise {A} e.

(** [bool(v)] *)
Definition truthy (v : PyVal) : bool :=
  match v with
  | PyNone => false
  | PyBool b => b
  | PyInt n => negb (n =? 0)%Z
  | PyStr s => negb (String.eqb s "")
  | PyList l => match l with [] => false | _ => true end
  | PyDict d => match d with [] => false | _ => true end
  end.

(** Dictionaries keep insertion order; a key occurs once. *)
Module Dict.
Fixpoint get {V} (k : string) (d : list (string * V)) : option V :=
  match d with
  | [] => None
  | (k', v) :: d' => if String.eqb k' k then Some v else get k d'
  end.

(** [d[k] = v] : overwrite in place, or append a new key. *)
Fixpoint set {V} (k : string) (v : V) (d : list (string * V)) : list (string * V) :=
  match d with
  | [] => [(k, v)]
  | (k', v') :: d' =>
      if String.eqb k' k then (k', v) :: d' else (k', v') :: set k v d'
  end.

Definition keys {V} (d : list (string * V)) : list string := map fst d.
End Dict.

(** [v[k]] for a string key [k]. *)
Definition getitem (v : PyVal) (k : string) : Outcome PyVal :=
  match v with
  | PyDict d => match Dict.get k d with
                | Some x => Ok x
                | None => Raise (KeyError k)
                end
  | _ => Raise TypeError
  end.

(** Process exit status of an uncaught [SystemExit(code)]. *)
Definition exit_status (code : option Z) : Z :=
  match code with
  | None => 0
  | Some n => n
  end.

(** ** Data model *)

Record Item : Type := {
  media_id : Z;
  title : string;
  year : Z;
  monitored : bool;
  status : string;
  tags : list Z
}.

(** One raw record of the download queue; [movieId] is present in a
    radarr payload, [seriesId] in a sonarr one.  The keys [downloadId],
    [title] and [customFormatScore] are taken as present in every
    record. *)
Record RawRecord : Type := {
  movieId : option Z;
  seriesId : option Z;
  downloadId : string;
  rec_title : string;
  customFormatScore : Z
}.

(** [queue.get('records', None)] *)
Record Queue : Type := { records : option (list RawRecord) }.

(** An element of [queue_dict]. *)
Record QueueItem : Type := {
  download_id : string;
  q_media_id : Z;
  torrent : string;
  torrent_custom_format_score : Z
}.

Record InstanceSettings : Type := {
  count_setting : option Z;
  tag_name_setting : option string;
  unattended_setting : option bool
}.

Record OutputDict : Type := {
  server_name : string;
  tagged_count : Z;
  untagged_count : Z;
  total_count : Z;
  data : list (list (string * PyVal))
}.

(** ** Trace of effects *)

Inductive Call : Type :=
| get_instance_name
| handle_starr_data (instance_type : string)
| get_tag_id_from_name (tag_name : string)
| search_media (media_ids : list Z)
| add_tags (media_ids : list Z) (tag_id : Z)
| get_command_status (command_id : PyVal)
| get_queue (instance_type : string).

Inductive Level : Type := DEBUG | INFO | ERROR.

Inductive LogMsg : Type :=
| Text (s : string)
| Table (rows : list (list string))
| Setting (label : string) (value : PyVal)
| Dump (label : string)
| Skipping (item : Item)
| ItemLine (item_title : PyVal) (item_year : PyVal)
| TorrentLine (name : string) (score : PyVal)
| NoItems (instance : string).

(** One line of a webhook field value. *)
Inductive Line : Type :=
| TitleLine (item_title : PyVal) (item_year : PyVal)
| ScoreLine (name : string) (score : PyVal)
| NoUpgradesLine.

Inductive Event : Type :=
| Called (url : string) (c : Call)
| Sleep (seconds : Z)
| Print (server : string)
| Log (lvl : Level) (msg : LogMsg)
| Discord (fields : list (string * list (list Line))) (description : string).

(** The remote server behind one [StARR] object: what each call answers. *)
Record Remote : Type := {
  instance_name : Outcome string;
  media : string -> Outcome (list Item);
  tag_id_of : string -> Outcome Z;
  search_response : list Z -> Outcome PyVal;
  add_tags_response : list Z -> Z -> Outcome PyVal;
  command_status : PyVal -> Outcome PyVal;
  queue_of : string -> Outcome Queue
}.

Record StARR : Type := { url : string; api : string; remote : Remote }.

(** ** Computations: a trace and a result or an exception *)

Definition M (A : Type) : Type := (list Event * Outcome A)%type.

Definition ret {A} (a : A) : M A := ([], Ok a).

Definition bind {A B} (m : M A) (f : A -> M B) : M B :=
  match m with
  | (t, Ok a) => let '(t', r) := f a in (t ++ t', r)
  | (t, Raise e) => (t, Raise e)
  end.

Definition emit (ev : Event) : M unit := ([ev], Ok tt).
Definition raise {A} (e : Exn) : M A := ([], Raise e).
Definition lift {A} (o : Outcome A) : M A := ([], o).
Definition call {A} (app : StARR) (c : Call) (answer : Outcome A) : M A :=
  ([Called (url app) c], answer).
Definition log (lvl : Level) (msg : LogMsg) : M unit := emit (Log lvl msg).

Declare Scope py_scope.
Delimit Scope py_scope with py.
Notation "'let*' x ':=' m 'in' k" := (bind m (fun x => k))
  (at level 10, x name, m at level 100, k at level 200) : py_scope.
Notation "m ;;; k" := (bind m (fun _ => k))
  (at level 100, right associativity) : py_scope.
Local Open Scope py_scope.

Definition trace {A} (m : M A) : list Event := fst m.
Definition outcome {A} (m : M A) : Outcome A := snd m.

(** The events of tagging and of polling the command status. *)
Definition tags_or_polls (ev : Event) : bool :=
  match ev with
  | Called _ (add_tags _ _) => true
  | Called _ (get_command_status _) => true
  | _ => false
  end.

(** ** filter_media *)

Definition allowed_statuses : list string :=
  ["continuing"; "airing"; "ended"; "canceled"; "released"].

(** The condition of the [continue] branch. *)
Definition skipped (tag_id : Z) (item : Item) : bool :=
  bool_decide (tag_id ∈ tags item)
  || negb (monitored item)
  || negb (bool_decide (status item ∈ allowed_statuses)).

(** An item the loop appends: the condition of the [continue] branch is
    false. *)
Definition eligible (tag_id : Z) (item : Item) : Prop :=
  skipped tag_id item = false.

#[global] Instance eligible_dec tag_id item : Decision (eligible tag_id item).
Proof. unfold eligible; apply _. Defined.

(** The [for] loop, with its two accumulators. *)
Fixpoint filter_media_loop (tag_id count : Z) (media_dict : list Item)
    (filtered_media_dict : list Item) (filter_count : Z) : M (list Item) :=
  match media_dict with
  | [] => ret filtered_media_dict
  | item :: rest =>
      if (filter_count =? count)%Z then ret filtered_media_dict
      else if skipped tag_id item then
        log DEBUG (Skipping item) ;;;
        filter_media_loop tag_id count rest filtered_media_dict filter_count
      else
        filter_media_loop tag_id count rest
          (filtered_media_dict ++ [item]) (filter_count + 1)%Z
  end.

Definition filter_media (media_dict : list Item) (tag_id count : Z) : M (list Item) :=
  filter_media_loop tag_id count media_dict [] 0%Z.

(** ** process_queue *)

Definition queue_item_tuple (q : QueueItem) : string * Z * string * Z :=
  (download_id q, q_media_id q, torrent q, torrent_custom_format_score q).

Definition tuple_queue_item (t : string * Z * string * Z) : QueueItem :=
  let '(d, m, t, s) := t in
  {| download_id := d; q_media_id := m; torrent := t;
     torrent_custom_format_score := s |}.

Lemma tuple_queue_item_inv q : tuple_queue_item (queue_item_tuple q) = q.
Proof. by destruct q. Qed.

#[global] Instance QueueItem_eq_dec : EqDecision QueueItem.
Proof. solve_decision. Defined.

#[global] Instance QueueItem_countable : Countable QueueItem :=
  inj_countable' queue_item_tuple tuple_queue_item tuple_queue_item_inv.

Definition id_type_of (instance_type : string) : option string :=
  if String.eqb instance_type "radarr" then Some "movieId"
  else if String.eqb instance_type "sonarr" then Some "seriesId"
  else None.

(** [item[id_type]] on a raw record. *)
Definition record_id (id_type : string) (item : RawRecord) : Outcome Z :=
  let field :=
    if String.eqb id_type "movieId" then movieId item else seriesId item in
  match field with
  | Some z => Ok z
  | None => Raise (KeyError id_type)
  end.

Definition queue_item_of (media_id : Z) (item : RawRecord) : QueueItem :=
  {| download_id := downloadId item;
     q_media_id := media_id;
     torrent := rec_title item;
     torrent_custom_format_score := customFormatScore item |}.

Fixpoint process_queue_loop (id_type : option string) (media_ids : list Z)
    (records : list RawRecord) (queue_dict : list QueueItem)
    : Outcome (list QueueItem) :=
  match records with
  | [] => Ok queue_dict
  | item :: rest =>
      match id_type with
      | None => Raise (UnboundLocalError "id_type")
      | Some idt =>
          match record_id idt item with
          | Raise e => Raise e
          | Ok media_id =>
              if bool_decide (media_id ∈ media_ids)
              then process_queue_loop id_type media_ids rest
                     (queue_dict ++ [queue_item_of media_id item])
              else process_queue_loop id_type media_ids rest queue_dict
          end
      end
  end.

(** The set comprehension [{tuple(d.items()) for d in queue_dict}]. *)
Definition queue_set (queue_dict : list QueueItem) : gset QueueItem :=
  list_to_set queue_dict.

(** The order in which the set is listed is not fixed by Python;
    [elements] stands for it, and only what does not depend on that
    order is meant to be read off the result. *)
Definition process_queue (queue : Queue) (instance_type : string)
    (media_ids : list Z) : Outcome (list QueueItem) :=
  match records queue with
  | None => Raise TypeError
  | Some recs =>
      match process_queue_loop (id_type_of instance_type) media_ids recs [] with
      | Raise e => Raise e
      | Ok queue_dict => Ok (elements (queue_set queue_dict))
      end
  end.

(** ** process_instance *)

(** The tagged / untagged counting loop. *)
Fixpoint count_loop (tag_id : Z) (media_dict : list Item)
    (tagged untagged : Z) : Z * Z :=
  match media_dict with
  | [] => (tagged, untagged)
  | item :: rest =>
      if bool_decide (tag_id ∈ tags item)
      then count_loop tag_id rest (tagged + 1)%Z untagged
      else count_loop tag_id rest tagged (untagged + 1)%Z
  end.

(** The inner loop over [queue_dict] filling [torrents] for one item. *)
Fixpoint torrents_loop (item : Item) (queue_dict : list QueueItem)
    (torrents : list (string * PyVal)) : list (string * PyVal) :=
  match queue_dict with
  | [] => torrents
  | queue_item :: rest =>
      if (media_id item =? q_media_id queue_item)%Z
      then torrents_loop item rest
             (Dict.set (torrent queue_item)
                (PyInt (torrent_custom_format_score queue_item)) torrents)
      else torrents_loop item rest torrents
  end.

(** The entry appended to [output_dict['data']]; [queue_item] is the loop
    variable of the inner loop as it is left when that loop has ended. *)
Definition entry_dict (item : Item) (torrents : list (string * PyVal))
    (queue_item : QueueItem) : list (string * PyVal) :=
  [("media_id", PyInt (media_id item));
   ("title", PyStr (title item));
   ("year", PyInt (year item));
   ("torrents", PyDict torrents);
   ("torrent_custom_format_score",
     PyInt (torrent_custom_format_score queue_item))].

Definition data_entry (item : Item) (torrents : list (string * PyVal))
    (queue_item : option QueueItem) : Outcome (list (string * PyVal)) :=
  match queue_item with
  | None => Raise (UnboundLocalError "queue_item")
  | Some qi => Ok (entry_dict item torrents qi)
  end.

(** The outer loop over [filtered_media_dict]. *)
Fixpoint data_loop (filtered_media_dict : list Item)
    (queue_dict : list QueueItem) (data : list (list (string * PyVal)))
    : Outcome (list (list (string * PyVal))) :=
  match filtered_media_dict with
  | [] => Ok data
  | item :: rest =>
      let torrents := torrents_loop item queue_dict [] in
      if truthy (PyDict torrents) then
        match data_entry item torrents (last queue_dict) with
        | Raise e => Raise e
        | Ok entry => data_loop rest queue_dict (data ++ [entry])
        end
      else data_loop rest queue_dict data
  end.

(** Some element of [queue_dict] is about [item]. *)
Definition has_match (queue_dict : list QueueItem) (item : Item) : bool :=
  existsb (fun q => (media_id item =? q_media_id q)%Z) queue_dict.

(** The entries of the dry-run branch. *)
Definition dry_entry (item : Item) : list (string * PyVal) :=
  [("media_id", PyInt (media_id item));
   ("title", PyStr (title item));
   ("year", PyInt (year item));
   ("torrent", PyNone);
   ("torrent_custom_format_score", PyNone)].

Definition with_data (o : OutputDict) (d : list (list (string * PyVal)))
    : OutputDict :=
  {| server_name := server_name o; tagged_count := tagged_count o;
     untagged_count := untagged_count o; total_count := total_count o;
     data := d |}.

Definition or_not_set (set : bool) (v : PyVal) : PyVal :=
  if set then v else PyStr "Not Set".

Definition process_instance (dry_run : bool) (instance_type : string)
    (instance_settings : InstanceSettings) (app : StARR) : M OutputDict :=
  let* server := call app get_instance_name (instance_name (remote app)) in
  let count := default 2%Z (count_setting instance_settings) in
  let tag_name := default "checked" (tag_name_setting instance_settings) in
  let unattended := default false (unattended_setting instance_settings) in
  log DEBUG (Table [[instance_type ++ " Settings"]%string]) ;;;
  log DEBUG (Setting "Count:" (or_not_set (truthy (PyInt count)) (PyInt count))) ;;;
  log DEBUG (Setting "tag_name:"
               (or_not_set (truthy (PyStr tag_name)) (PyStr tag_name))) ;;;
  log DEBUG (Setting "unattended:" (or_not_set unattended (PyBool unattended))) ;;;
  log DEBUG (Text "****************************************") ;;;
  emit (Print server) ;;;
  let* media_dict := call app (handle_starr_data instance_type)
                  (media (remote app) instance_type) in
  log DEBUG (Dump "media_dict") ;;;
  let* tag_id := call app (get_tag_id_from_name tag_name)
              (tag_id_of (remote app) tag_name) in
  let* filtered_media_dict := filter_media media_dict tag_id count in
  log DEBUG (Dump "filtered_media_dict") ;;;
  let total := match media_dict with
               | [] => 0%Z
               | _ => Z.of_nat (length media_dict)
               end in
  let counts := match media_dict with
                | [] => (0%Z, 0%Z)
                | _ => count_loop tag_id media_dict 0%Z 0%Z
                end in
  let output_dict :=
    {| server_name := server; tagged_count := fst counts;
       untagged_count := snd counts; total_count := total; data := [] |} in
  if negb dry_run then
    let media_ids := map media_id filtered_media_dict in
    let* response := call app (search_media media_ids)
                  (search_response (remote app) media_ids) in
    let* response := (if truthy response
                 then call app (add_tags media_ids tag_id)
                        (add_tags_response (remote app) media_ids tag_id)
                 else ret response) in
    let* command_id := lift (getitem response "id") in
    let* ready := call app (get_command_status command_id)
               (command_status (remote app) command_id) in
    emit (Sleep 3) ;;;
    if truthy ready then
      let* queue := call app (get_queue instance_type)
                 (queue_of (remote app) instance_type) in
      let* queue_dict := lift (process_queue queue instance_type media_ids) in
      log DEBUG (Dump "queue_dict") ;;;
      let* entries := lift (data_loop filtered_media_dict queue_dict []) in
      ret (with_data output_dict entries)
    else ret output_dict
  else
    ret (with_data output_dict (map dry_entry filtered_media_dict)).

(** The results of a dry run: each comes from the dry-run branch of
    [process_instance]. *)
Definition dry_results (outs : list (string * OutputDict)) : Prop :=
  Forall (fun e => exists instance_type settings app,
            outcome (process_instance true instance_type settings app)
            = Ok (snd e)) outs.

(** ** print_output and notification *)

Fixpoint for_each {A} (f : A -> M unit) (l : list A) : M unit :=
  match l with
  | [] => ret tt
  | x :: rest => f x ;;; for_each f rest
  end.

(** [v.items()] *)
Definition items_of (v : PyVal) : Outcome (list (string * PyVal)) :=
  match v with
  | PyDict d => Ok d
  | _ => Raise AttributeError
  end.

Definition print_item (item : list (string * PyVal)) : M unit :=
  let* item_title := lift (getitem (PyDict item) "title") in
  let* item_year := lift (getitem (PyDict item) "year") in
  log INFO (ItemLine item_title item_year) ;;;
  let* torrents := lift (getitem (PyDict item) "torrents") in
  let* pairs := lift (items_of torrents) in
  for_each (fun p => log INFO (TorrentLine (fst p) (snd p))) pairs ;;;
  log INFO (Text "").

Definition print_instance (entry : string * OutputDict) : M unit :=
  let '(instance, run_data) := entry in
  match data run_data with
  | [] => log INFO (NoItems instance)
  | instance_data =>
      log INFO (Table [[server_name run_data]]) ;;;
      for_each print_item instance_data
  end.

Definition print_output (output_dict : list (string * OutputDict)) : M unit :=
  for_each print_instance output_dict.

(** The lines of one item of a webhook field. *)
Definition notification_item (item : list (string * PyVal)) : M (list Line) :=
  let* item_title := lift (getitem (PyDict item) "title") in
  let* item_year := lift (getitem (PyDict item) "year") in
  let* torrents := lift (getitem (PyDict item) "torrents") in
  if truthy torrents then
    let* pairs := lift (items_of torrents) in
    ret (TitleLine item_title item_year
           :: map (fun p => ScoreLine (fst p) (snd p)) pairs)
  else ret [TitleLine item_title item_year; NoUpgradesLine].

Fixpoint server_list_loop (instance_data : list (list (string * PyVal)))
    (server_list : list (list Line)) : M (list (list Line)) :=
  match instance_data with
  | [] => ret server_list
  | item :: rest =>
      let* torrent_list := notification_item item in
      server_list_loop rest (server_list ++ [torrent_list])
  end.

Fixpoint fields_loop (output_dict : list (string * OutputDict))
    (fields : list (string * list (list Line)))
    : M (list (string * list (list Line))) :=
  match output_dict with
  | [] => ret fields
  | (instance, run_data) :: rest =>
      let* server_list := server_list_loop (data run_data) [] in
      match server_list with
      | [] => fields_loop rest fields
      | _ => fields_loop rest (fields ++ [(server_name run_data, server_list)])
      end
  end.

Definition notification (dry_run : bool)
    (output_dict : list (string * OutputDict)) : M unit :=
  let* fields := fields_loop output_dict [] in
  emit (Discord fields (if dry_run then "__**Dry Run**__" else "")).

(** ** main *)

Record Config : Type := {
  dry_run : bool;
  (** [script_config.get('instances', None)] *)
  instances : option (list (string * InstanceSettings));
  (** instance type, then instance name, to url and api key *)
  instances_config : list (string * list (string * (string * string)))
}.

(** One pass through the body of the nested loops of [main]. *)
Record Job : Type := {
  job_type : string;
  job_instance : string;
  job_settings : InstanceSettings;
  job_url : string;
  job_api : string
}.

Section Main.
(** What [StARR(url, api, logger)] is connected to. *)
Variable world : string -> string -> Remote.
Variable cfg : Config.

Definition connect (u a : string) : StARR :=
  {| url := u; api := a; remote := world u a |}.

Fixpoint instance_loop (instance_type : string)
    (instance_data : list (string * (string * string)))
    (insts : list (string * InstanceSettings))
    (final_output_dict : list (string * OutputDict))
    : M (list (string * OutputDict)) :=
  match insts with
  | [] => ret final_output_dict
  | (instance, instance_settings) :: rest =>
      match Dict.get instance instance_data with
      | Some (u, a) =>
          let* output := process_instance (dry_run cfg) instance_type
                      instance_settings (connect u a) in
          instance_loop instance_type instance_data rest
            (Dict.set instance output final_output_dict)
      | None =>
          instance_loop instance_type instance_data rest final_output_dict
      end
  end.

Fixpoint type_loop
    (types : list (string * list (string * (string * string))))
    (insts : list (string * InstanceSettings))
    (final_output_dict : list (string * OutputDict))
    : M (list (string * OutputDict)) :=
  match types with
  | [] => ret final_output_dict
  | (instance_type, instance_data) :: rest =>
      let* final := instance_loop instance_type instance_data insts
                 final_output_dict in
      type_loop rest insts final
  end.

(** The banner printed first in a dry run. *)
Definition banner : M unit :=
  if dry_run cfg
  then log INFO (Table [["Dry Run"]; ["NO CHANGES WILL BE MADE"]])
  else ret tt.

Definition main : M unit :=
  banner ;;;
  match instances cfg with
  | None | Some [] =>
      log ERROR (Text "No instances found in config file.") ;;;
      raise (SystemExit None)
  | Some insts =>
      let* final_output_dict := type_loop (instances_config cfg) insts [] in
      log DEBUG (Dump "final_output_dict") ;;;
      match final_output_dict with
      | [] => ret tt
      | _ =>
          print_output final_output_dict ;;;
          notification (dry_run cfg) final_output_dict
      end
  end.

(** The instances the two nested loops reach, in the order in which
    they are processed. *)
Fixpoint instance_jobs (instance_type : string)
    (instance_data : list (string * (string * string)))
    (insts : list (string * InstanceSettings)) : list Job :=
  match insts with
  | [] => []
  | (instance, instance_settings) :: rest =>
      match Dict.get instance instance_data with
      | Some (u, a) =>
          {| job_type := instance_type; job_instance := instance;
             job_settings := instance_settings; job_url := u;
             job_api := a |}
            :: instance_jobs instance_type instance_data rest
      | None => instance_jobs instance_type instance_data rest
      end
  end.

Fixpoint jobs (types : list (string * list (string * (string * string))))
    (insts : list (string * InstanceSettings)) : list Job :=
  match types with
  | [] => []
  | (instance_type, instance_data) :: rest =>
      instance_jobs instance_type instance_data insts ++ jobs rest insts
  end.

Definition run_job (j : Job) : M OutputDict :=
  process_instance (dry_run cfg) (job_type j) (job_settings j)
    (connect (job_url j) (job_api j)).

Fixpoint run_jobs (js : list Job)
    (final_output_dict : list (string * OutputDict))
    : M (list (string * OutputDict)) :=
  match js with
  | [] => ret final_output_dict
  | j :: rest =>
      let* output := run_job j in
      run_jobs rest (Dict.set (job_instance j) output final_output_dict)
  end.
End Main.

(** The events by which results are reported: the lines of
    [print_output] and the webhook message. *)
Definition reports (ev : Event) : bool :=
  match ev with
  | Discord _ _ => true
  | Log INFO (ItemLine _ _) => true
  | Log INFO (TorrentLine _ _) => true
  | Log INFO (NoItems _) => true
  | _ => false
  end.

(** The events of a run that change the server or wait for it: search
    trigger, tagging, status polling, queue fetch and the settling
    delay. *)
Definition mutates_or_waits (ev : Event) : bool :=
  match ev with
  | Called _ (search_media _) => true
  | Called _ (add_tags _ _) => true
  | Called _ (get_command_status _) => true
  | Called _ (get_queue _) => true
  | Sleep _ => true
  | _ => false
  end.

(** The results of a run that is not dry. *)
Definition live_results (outs : list (string * OutputDict)) : Prop :=
  Forall (fun e => exists instance_type settings app,
            outcome (process_instance false instance_type settings app)
            = Ok (snd e)) outs.

(** The webhook message. *)
Definition is_discord (ev : Event) : bool :=
  match ev with
  | Discord _ _ => true
  | _ => false
  end.

(** The instance result has at least one entry. *)
Definition has_data (e : string * OutputDict) : bool :=
  match data (snd e) with
  | [] => false
  | _ => true
  end.

(** An entry as the reconciliation loop builds it: the torrents mapping
    is not empty. *)
Definition reconciled_entry (entry : list (string * PyVal)) : Prop :=
  exists item torrents queue_item,
    entry = entry_dict item torrents queue_item /\ torrents <> [].

(** ** Sample data *)

Module Samples.
Definition item (i : Z) (tg : list Z) : Item :=
  {| media_id := i; title := "Film"; year := 2020; monitored := true;
     status := "released"; tags := tg |}.

(** Three items; the second carries tag 7. *)
Definition library : list Item := [item 1 []; item 2 [7%Z]; item 3 []].

(** A radarr queue record for movie [i]. *)
Definition record (i : Z) (dl name : string) (score : Z) : RawRecord :=
  {| movieId := Some i; seriesId := None; downloadId := dl;
     rec_title := name; customFormatScore := score |}.

(** A server holding [library], with tag id 7, answering the search
    trigger with [search] and the queue request with [q]. *)
Definition server (search : Outcome PyVal) (q : Outcome Queue) : Remote :=
  {| instance_name := Ok "radarr_1";
     media := fun _ => Ok library;
     tag_id_of := fun _ => Ok 7%Z;
     search_response := fun _ => search;
     add_tags_response := fun _ _ => Ok (PyDict [("id", PyInt 5)]);
     command_status := fun _ => Ok (PyBool true);
     queue_of := fun _ => q |}.

Definition app (r : Remote) : StARR :=
  {| url := "http://radarr"; api := "key"; remote := r |}.

Definition defaults : InstanceSettings :=
  {| count_setting := None; tag_name_setting := None;
     unattended_setting := None |}.

Definition command : PyVal := PyDict [("id", PyInt 4)].
Definition empty_queue : Queue := {| records := Some [] |}.

(** The queue holds one release for movie 1 and one for movie 3. *)
Definition release1 : RawRecord := record 1 "d1" "Film.One.1080p" 10.
Definition release3 : RawRecord := record 3 "d3" "Film.Three.2160p" 20.
Definition queue13 : Queue := {| records := Some [release1; release3] |}.

(** The queue holds a release for movie 1 only. *)
Definition queue1 : Queue := {| records := Some [release1] |}.

Definition q1 : QueueItem := queue_item_of 1 release1.
Definition q3 : QueueItem := queue_item_of 3 release3.

(** Two configured instances; the queue request of the first one
    fails. *)
Definition two_instances : Config :=
  {| dry_run := false;
     instances := Some [("radarr_1", defaults); ("sonarr_1", defaults)];
     instances_config :=
       [("radarr", [("radarr_1", ("http://radarr", "key"))]);
        ("sonarr", [("sonarr_1", ("http://sonarr", "key"))])] |}.

Definition failing_world (u a : string) : Remote :=
  if String.eqb u "http://radarr"
  then server (Ok command) (Raise (RemoteError "queue request failed"))
  else server (Ok command) (Ok empty_queue).

(** One instance, dry run. *)
Definition dry_instance : Config :=
  {| dry_run := true;
     instances := Some [("radarr_1", defaults)];
     instances_config :=
       [("radarr", [("radarr_1", ("http://radarr", "key"))])] |}.

(** One instance, not dry; every server answers, and its queue holds the
    two releases. *)
Definition live_instance : Config :=
  {| dry_run := false;
     instances := Some [("radarr_1", defaults)];
     instances_config :=
       [("radarr", [("radarr_1", ("http://radarr", "key"))])] |}.

Definition good_world (u a : string) : Remote :=
  server (Ok command) (Ok queue13).

(** The script names an instance that the instance configuration does
    not have. *)
Definition unmatched_instance : Config :=
  {| dry_run := false;
     instances := Some [("radarr_2", defaults)];
     instances_config :=
       [("radarr", [("radarr_1", ("http://radarr", "key"))])] |}.

(** No instance configured for the script. *)
Definition no_instances : Config :=
  {| dry_run := false; instances := None;
     instances_config :=
       [("radarr", [("radarr_1", ("http://radarr", "key"))])] |}.
End Samples.

(** * Properties *)

(** ** The trace monad *)

Arguments bind : simpl never.

Lemma outcome_bind_ok {A B} (m : M A) (f : A -> M B) a :
  outcome m = Ok a -> outcome (bind m f) = outcome (f a).
Proof.
  destruct m as [t o]; unfold bind; simpl; intros ->.
  by destruct (f a).
Qed.

Lemma outcome_bind_raise {A B} (m : M A) (f : A -> M B) e :
  outcome m = Raise e -> outcome (bind m f) = Raise e.
Proof. destruct m as [t o]; unfold bind; simpl; by intros ->. Qed.

Lemma trace_bind_ok {A B} (m : M A) (f : A -> M B) a :
  outcome m = Ok a -> trace (bind m f) = trace m ++ trace (f a).
Proof.
  destruct m as [t o]; unfold bind; simpl; intros ->.
  by destruct (f a).
Qed.

Lemma trace_bind_raise {A B} (m : M A) (f : A -> M B) e :
  outcome m = Raise e -> trace (bind m f) = trace m.
Proof. destruct m as [t o]; unfold bind; simpl; by intros ->. Qed.

Lemma bind_eta {A} (m : M A) : m = (trace m, outcome m).
Proof. by destruct m. Qed.

(** ** filter_media *)

Lemma eligible_iff tag_id item :
  eligible tag_id item <->
  (tag_id ∉ tags item) /\ monitored item = true /\
  status item ∈ allowed_statuses.
Proof.
  unfold eligible, skipped.
  rewrite !orb_false_iff, !negb_false_iff, bool_decide_eq_false,
    bool_decide_eq_true.
  tauto.
Qed.

(** While the counter has not passed [count], the loop takes the first
    [count - filter_count] eligible items. *)
Lemma filter_media_loop_bounded tag_id count media_dict acc n :
  (n <= count)%Z ->
  outcome (filter_media_loop tag_id count media_dict acc n)
  = Ok (acc ++ take (Z.to_nat (count - n)) (filter (eligible tag_id) media_dict)).
Proof.
  revert acc n.
  induction media_dict as [|item rest IH]; intros acc n Hn; simpl.
  - by rewrite firstn_nil, app_nil_r.
  - destruct (Z.eqb_spec n count) as [->|Hne].
    + by rewrite Z.sub_diag, take_0, app_nil_r.
    + destruct (skipped tag_id item) eqn:Hs.
      * rewrite (outcome_bind_ok _ _ tt) by reflexivity.
        rewrite IH by lia.
        rewrite filter_cons_False; [done|].
        unfold eligible; congruence.
      * rewrite IH by lia.
        rewrite filter_cons_True by exact Hs.
        replace (Z.to_nat (count - n)) with (S (Z.to_nat (count - (n + 1)))) by lia.
        simpl. by rewrite <- app_assoc.
Qed.

(** Once the counter is above [count] the test [filter_count == count]
    never succeeds again. *)
Lemma filter_media_loop_unbounded tag_id count media_dict acc n :
  (count < n)%Z ->
  outcome (filter_media_loop tag_id count media_dict acc n)
  = Ok (acc ++ filter (eligible tag_id) media_dict).
Proof.
  revert acc n.
  induction media_dict as [|item rest IH]; intros acc n Hn; simpl.
  - by rewrite app_nil_r.
  - destruct (Z.eqb_spec n count) as [->|Hne]; [lia|].
    destruct (skipped tag_id item) eqn:Hs.
    + rewrite (outcome_bind_ok _ _ tt) by reflexivity.
      rewrite IH by lia.
      rewrite filter_cons_False; [done|].
      unfold eligible; congruence.
    + rewrite IH by lia.
      rewrite filter_cons_True by exact Hs.
      by rewrite <- app_assoc.
Qed.

Lemma filter_media_nonneg media_dict tag_id count :
  (0 <= count)%Z ->
  outcome (filter_media media_dict tag_id count)
  = Ok (take (Z.to_nat count) (filter (eligible tag_id) media_dict)).
Proof.
  intros H. unfold filter_media.
  rewrite filter_media_loop_bounded by done.
  by rewrite Z.sub_0_r.
Qed.

Lemma filter_media_negative media_dict tag_id count :
  (count < 0)%Z ->
  outcome (filter_media media_dict tag_id count)
  = Ok (filter (eligible tag_id) media_dict).
Proof.
  intros H. unfold filter_media.
  by rewrite filter_media_loop_unbounded.
Qed.

Lemma filter_media_zero media_dict tag_id :
  outcome (filter_media media_dict tag_id 0) = Ok [].
Proof. by rewrite filter_media_nonneg. Qed.

(** The selection never raises. *)
Lemma filter_media_total media_dict tag_id count :
  exists r, outcome (filter_media media_dict tag_id count) = Ok r.
Proof.
  destruct (Z.lt_ge_cases count 0).
  - rewrite filter_media_negative by done. eauto.
  - rewrite filter_media_nonneg by done. eauto.
Qed.

(** What holds of the selection for every input: each returned item
    does not carry the tag, is monitored and has an allowed status, the
    result is a subsequence of the input (same relative order), and when
    the limit is not negative it has at most [limit] items. *)
Lemma filter_media_selection media_dict tag_id count :
  exists r,
    outcome (filter_media media_dict tag_id count) = Ok r /\
    ((0 <= count)%Z -> (Z.of_nat (length r) <= count)%Z) /\
    Forall (fun item =>
              (tag_id ∉ tags item) /\ monitored item = true /\
              status item ∈ allowed_statuses) r /\
    r `sublist_of` media_dict.
Proof.
  assert (Hall : forall l, l `sublist_of` filter (eligible tag_id) media_dict ->
            Forall (fun item =>
              (tag_id ∉ tags item) /\ monitored item = true /\
              status item ∈ allowed_statuses) l).
  { intros l Hl. apply Forall_forall. intros x Hx.
    apply eligible_iff.
    eapply elem_of_sublist in Hx; [|exact Hl].
    by apply list_elem_of_filter in Hx as [? _]. }
  destruct (Z.lt_ge_cases count 0) as [Hneg|Hpos].
  - exists (filter (eligible tag_id) media_dict).
    split; [by apply filter_media_negative|].
    split; [lia|]. split; [by apply Hall|apply sublist_filter].
  - exists (take (Z.to_nat count) (filter (eligible tag_id) media_dict)).
    split; [by apply filter_media_nonneg|].
    split; [intros _; rewrite length_take; lia|].
    split; [apply Hall, sublist_take|].
    etrans; [apply sublist_take|apply sublist_filter].
Qed.

(** C2: for every input the returned items are eligible and in input
    order, and for a limit that is not negative there are at most [limit]
    of them; but with a negative limit the test [filter_count == count]
    never succeeds and the bound is lost: with limit -1 the two eligible
    items of the sample library are both returned, where a limit that is
    not positive allows none. *)
Theorem filter_media_bound_lost_for_negative_limit :
  (forall media_dict tag_id count,
      exists r,
        outcome (filter_media media_dict tag_id count) = Ok r /\
        ((0 <= count)%Z -> (Z.of_nat (length r) <= count)%Z) /\
        Forall (fun item =>
                  (tag_id ∉ tags item) /\ monitored item = true /\
                  status item ∈ allowed_statuses) r /\
        r `sublist_of` media_dict) /\
  outcome (filter_media Samples.library 7 (-1))
    = Ok [Samples.item 1 []; Samples.item 3 []] /\
  ~ (Z.of_nat (length [Samples.item 1 []; Samples.item 3 []]) <= Z.max 0 (-1))%Z.
Proof.
  split; [apply filter_media_selection|].
  split; [reflexivity|]. simpl. lia.
Qed.

(** C2, instance: three items, the second already tagged, limit 1. *)
Lemma filter_media_bound_lost_for_negative_limit_witness :
  (0 <= 1)%Z /\
  exists r,
    outcome (filter_media Samples.library 7 1) = Ok r /\
    (Z.of_nat (length r) <= 1)%Z /\
    Forall (fun item =>
              (7%Z ∉ tags item) /\ monitored item = true /\
              status item ∈ allowed_statuses) r /\
    r `sublist_of` Samples.library.
Proof.
  assert (H : (0 <= 1)%Z) by lia.
  split; [exact H|].
  destruct (proj1 filter_media_bound_lost_for_negative_limit
              Samples.library 7%Z 1%Z) as (r & Hr & Hlen & Hall & Hsub).
  exists r. split; [exact Hr|]. split; [exact (Hlen H)|].
  split; [exact Hall|exact Hsub].
Defined.

(** C3: with limit 0 the selection is empty, but with a negative limit
    (here -2, one eligible item) the counter never equals the limit and
    the item is returned. *)
Theorem filter_media_nonpositive_limit :
  (forall media_dict tag_id,
      outcome (filter_media media_dict tag_id 0) = Ok []) /\
  outcome (filter_media [Samples.item 1 []] 7 (-2)) = Ok [Samples.item 1 []].
Proof. split; [apply filter_media_zero|reflexivity]. Qed.

(** ** process_queue *)

Lemma process_queue_loop_app id_type media_ids l1 l2 acc :
  process_queue_loop id_type media_ids (l1 ++ l2) acc
  = match process_queue_loop id_type media_ids l1 acc with
    | Ok acc' => process_queue_loop id_type media_ids l2 acc'
    | Raise e => Raise e
    end.
Proof.
  revert acc. induction l1 as [|r l1 IH]; intros acc; simpl; [done|].
  destruct id_type as [idt|]; [|done].
  destruct (record_id idt r) as [m|e]; [|done].
  by destruct (bool_decide (m ∈ media_ids)).
Qed.

(** When the loop ends normally, every record had its id field, the
    accumulator only grew, and every record aimed at a selected item left
    its association in the result. *)
Lemma process_queue_loop_ok id_type media_ids recs acc queue_dict :
  process_queue_loop id_type media_ids recs acc = Ok queue_dict ->
  (forall q, q ∈ acc -> q ∈ queue_dict) /\
  forall r, r ∈ recs ->
    exists idt m, id_type = Some idt /\ record_id idt r = Ok m /\
      (m ∈ media_ids -> queue_item_of m r ∈ queue_dict).
Proof.
  revert acc. induction recs as [|r0 recs IH]; intros acc; simpl.
  - intros [= ->]. split; [done|]. intros r Hr. by apply elem_of_nil in Hr.
  - destruct id_type as [idt|]; [|done].
    destruct (record_id idt r0) as [m0|e] eqn:Hid; [|done].
    destruct (bool_decide (m0 ∈ media_ids)) eqn:Hin; intros Hloop;
      destruct (IH _ Hloop) as [Hacc Hrecs].
    + split.
      * intros q Hq. apply Hacc, elem_of_app. by left.
      * intros r [->|Hr]%elem_of_cons; [|by apply Hrecs].
        exists idt, m0. repeat split; [done|].
        intros _. apply Hacc, elem_of_app. right. by apply list_elem_of_singleton.
    + split; [done|].
      intros r [->|Hr]%elem_of_cons; [|by apply Hrecs].
      exists idt, m0. repeat split; [done|].
      intros Hm. by apply bool_decide_eq_false in Hin.
Qed.

(** Every association of the result is aimed at a selected item. *)
Lemma process_queue_loop_targets id_type media_ids recs acc queue_dict :
  process_queue_loop id_type media_ids recs acc = Ok queue_dict ->
  Forall (fun q => q_media_id q ∈ media_ids) acc ->
  Forall (fun q => q_media_id q ∈ media_ids) queue_dict.
Proof.
  revert acc. induction recs as [|r0 recs IH]; intros acc; simpl.
  - by intros [= ->].
  - destruct id_type as [idt|]; [|done].
    destruct (record_id idt r0) as [m0|e]; [|done].
    destruct (bool_decide (m0 ∈ media_ids)) eqn:Hin; intros Hloop Hacc.
    + apply (IH _ Hloop). apply Forall_app. split; [done|].
      apply Forall_singleton. simpl. by apply bool_decide_eq_true in Hin.
    + by apply (IH _ Hloop).
Qed.

Lemma process_queue_append_existing recs r instance_type media_ids :
  r ∈ recs ->
  process_queue {| records := Some (recs ++ [r]) |} instance_type media_ids
  = process_queue {| records := Some recs |} instance_type media_ids.
Proof.
  intros Hr. unfold process_queue; simpl.
  rewrite process_queue_loop_app.
  destruct (process_queue_loop _ _ recs []) as [qd|e] eqn:Hloop; [|done].
  destruct (process_queue_loop_ok _ _ _ _ _ Hloop) as [_ Hrecs].
  destruct (Hrecs r Hr) as (idt & m & -> & Hid & Hin).
  simpl. rewrite Hid.
  destruct (bool_decide (m ∈ media_ids)) eqn:Hm; [|done].
  apply bool_decide_eq_true in Hm. specialize (Hin Hm).
  f_equal. f_equal. unfold queue_set.
  rewrite list_to_set_app_L. simpl.
  apply (elem_of_list_to_set (C:=gset QueueItem)) in Hin.
  set_solver.
Qed.

Lemma process_queue_NoDup queue instance_type media_ids queue_dict :
  process_queue queue instance_type media_ids = Ok queue_dict ->
  NoDup queue_dict.
Proof.
  unfold process_queue.
  destruct (records queue) as [recs|]; [|done].
  destruct (process_queue_loop _ _ recs []) as [qd|e]; [|done].
  intros [= <-]. apply NoDup_elements.
Qed.

Lemma process_queue_twice r idt m instance_type media_ids :
  id_type_of instance_type = Some idt ->
  record_id idt r = Ok m ->
  m ∈ media_ids ->
  process_queue {| records := Some [r; r] |} instance_type media_ids
  = Ok [queue_item_of m r].
Proof.
  intros Hty Hid Hm. unfold process_queue; simpl.
  rewrite Hty, Hid.
  rewrite (bool_decide_eq_true_2 _ Hm). simpl.
  f_equal. unfold queue_set.
  replace (list_to_set [queue_item_of m r; queue_item_of m r] : gset QueueItem)
    with ({[queue_item_of m r]} : gset QueueItem) by set_solver.
  apply elements_singleton.
Qed.

(** C7: appending an exact copy of a record that is already in the queue
    does not change the result of [process_queue]; two identical records
    for a selected item give exactly one association; and no association
    occurs twice in a result. *)
Theorem process_queue_idempotent_under_duplication
    recs r instance_type media_ids :
  (r ∈ recs ->
   process_queue {| records := Some (recs ++ [r]) |} instance_type media_ids
   = process_queue {| records := Some recs |} instance_type media_ids) /\
  (forall idt m,
      id_type_of instance_type = Some idt -> record_id idt r = Ok m ->
      m ∈ media_ids ->
      process_queue {| records := Some [r; r] |} instance_type media_ids
      = Ok [queue_item_of m r]) /\
  (forall queue_dict,
      process_queue {| records := Some recs |} instance_type media_ids
      = Ok queue_dict ->
      NoDup queue_dict).
Proof.
  split; [apply process_queue_append_existing|].
  split; [intros; by eapply process_queue_twice|].
  apply process_queue_NoDup.
Qed.

(** C7, instance: the queue holds one release for movie 1, which is
    selected. *)
Lemma process_queue_idempotent_under_duplication_witness :
  let r := Samples.release1 in
  r ∈ [r] /\
  process_queue {| records := Some ([r] ++ [r]) |} "radarr" [1%Z]
  = process_queue {| records := Some [r] |} "radarr" [1%Z] /\
  process_queue {| records := Some [r; r] |} "radarr" [1%Z]
  = Ok [queue_item_of 1 r] /\
  NoDup [queue_item_of 1 r].
Proof.
  intros r.
  destruct (process_queue_idempotent_under_duplication [r] r "radarr" [1%Z])
    as (Happend & Htwice & Hnodup).
  assert (Hin : r ∈ [r]) by (by apply list_elem_of_singleton).
  split; [exact Hin|]. split; [exact (Happend Hin)|].
  split.
  - apply (Htwice "movieId" 1%Z); [reflexivity|reflexivity|].
    by apply list_elem_of_singleton.
  - apply Hnodup. vm_compute. reflexivity.
Defined.

(** ** process_instance *)

Lemma bind_ok_inv {A B} (m : M A) (f : A -> M B) b :
  outcome (bind m f) = Ok b ->
  exists a, outcome m = Ok a /\ outcome (f a) = Ok b.
Proof.
  destruct (outcome m) as [a|e] eqn:Hm.
  - rewrite (outcome_bind_ok _ _ _ Hm). eauto.
  - by rewrite (outcome_bind_raise _ _ _ Hm).
Qed.

Ltac bind_inv H x Hx :=
  apply bind_ok_inv in H as (x & Hx & H); simpl in Hx.
Ltac skip_unit H :=
  let u := fresh "u" in let Hu := fresh "Hu" in
  apply bind_ok_inv in H as (u & Hu & H); clear u Hu.

Lemma count_loop_spec tag_id media_dict tagged untagged :
  count_loop tag_id media_dict tagged untagged
  = ((tagged + Z.of_nat (length (filter (fun item => tag_id ∈ tags item) media_dict)))%Z,
     (untagged + Z.of_nat (length (filter (fun item => tag_id ∉ tags item) media_dict)))%Z).
Proof.
  revert tagged untagged.
  induction media_dict as [|item rest IH]; intros tagged untagged; simpl.
  - f_equal; lia.
  - case_bool_decide as Hin; rewrite IH.
    + rewrite filter_cons_True by done.
      rewrite (filter_cons_False (fun item => tag_id ∉ tags item)) by tauto.
      simpl length. f_equal; lia.
    + rewrite filter_cons_False by done.
      rewrite (filter_cons_True (fun item => tag_id ∉ tags item)) by done.
      simpl length. f_equal; lia.
Qed.

Lemma tagged_untagged_partition tag_id (media_dict : list Item) :
  length (filter (fun item => tag_id ∈ tags item) media_dict)
  + length (filter (fun item => tag_id ∉ tags item) media_dict)
  = length media_dict.
Proof.
  induction media_dict as [|item rest IH]; [done|].
  destruct (decide (tag_id ∈ tags item)) as [Hin|Hout].
  - rewrite filter_cons_True by done.
    rewrite (filter_cons_False (fun item => tag_id ∉ tags item)) by tauto.
    simpl. lia.
  - rewrite filter_cons_False by done.
    rewrite (filter_cons_True (fun item => tag_id ∉ tags item)) by done.
    simpl. lia.
Qed.

(** What a normal return of [process_instance] tells about the calls made
    before the dry-run branch and about the counters of the result. *)
Lemma process_instance_ok_inv dry instance_type settings app out :
  outcome (process_instance dry instance_type settings app) = Ok out ->
  exists server media_dict tag_id filtered,
    instance_name (remote app) = Ok server /\
    media (remote app) instance_type = Ok media_dict /\
    tag_id_of (remote app) (default "checked" (tag_name_setting settings))
      = Ok tag_id /\
    outcome (filter_media media_dict tag_id
               (default 2%Z (count_setting settings))) = Ok filtered /\
    server_name out = server /\
    total_count out = Z.of_nat (length media_dict) /\
    tagged_count out
      = Z.of_nat (length (filter (fun item => tag_id ∈ tags item) media_dict)) /\
    untagged_count out
      = Z.of_nat (length (filter (fun item => tag_id ∉ tags item) media_dict)) /\
    (dry = true -> data out = map dry_entry filtered).
Proof.
  unfold process_instance. intros H.
  bind_inv H server Hserver.
  do 6 skip_unit H.
  bind_inv H media_dict Hmedia.
  skip_unit H.
  bind_inv H tag_id Htag.
  bind_inv H filtered Hfiltered.
  skip_unit H.
  exists server, media_dict, tag_id, filtered.
  do 4 (split; [done|]).
  set (o := {| server_name := server; data := [] |}) in H.
  assert (Hcounts :
    total_count o = Z.of_nat (length media_dict) /\
    tagged_count o
      = Z.of_nat (length (filter (fun item => tag_id ∈ tags item) media_dict)) /\
    untagged_count o
      = Z.of_nat (length (filter (fun item => tag_id ∉ tags item) media_dict))).
  { subst o; simpl. destruct media_dict as [|item rest]; [done|].
    rewrite count_loop_spec. simpl fst; simpl snd. by rewrite !Z.add_0_l. }
  assert (Hshape : exists d, out = with_data o d).
  { destruct dry; simpl in H.
    - injection H as <-. eauto.
    - bind_inv H response Hresponse.
      bind_inv H response' Hresponse'.
      bind_inv H command_id Hid.
      bind_inv H ready Hready.
      skip_unit H.
      destruct (truthy ready).
      + bind_inv H queue Hqueue.
        bind_inv H queue_dict Hqd.
        skip_unit H.
        bind_inv H entries Hentries.
        injection H as <-. eauto.
      + injection H as <-. exists []. by subst o. }
  destruct Hshape as [d ->]. simpl.
  split; [by subst o|].
  do 3 (split; [tauto|]).
  intros ->. simpl in H. by injection H as <-.
Qed.

(** C5: whenever [process_instance] returns a result whose [total_count]
    is positive, [tagged_count + untagged_count = total_count]; the two
    counters count, over the whole list of media fetched from the server,
    the items that carry the resolved tag id and those that do not. *)
Theorem tagged_plus_untagged_is_total dry instance_type settings app out :
  outcome (process_instance dry instance_type settings app) = Ok out ->
  (0 < total_count out)%Z ->
  exists media_dict tag_id,
    media (remote app) instance_type = Ok media_dict /\
    tag_id_of (remote app) (default "checked" (tag_name_setting settings))
      = Ok tag_id /\
    total_count out = Z.of_nat (length media_dict) /\
    tagged_count out
      = Z.of_nat (length (filter (fun item => tag_id ∈ tags item) media_dict)) /\
    untagged_count out
      = Z.of_nat (length (filter (fun item => tag_id ∉ tags item) media_dict)) /\
    (tagged_count out + untagged_count out = total_count out)%Z.
Proof.
  intros Hout _.
  apply process_instance_ok_inv in Hout
    as (server & media_dict & tag_id & filtered & _ & Hmedia & Htag & _ & _
        & Htotal & Htagged & Huntagged & _).
  exists media_dict, tag_id.
  do 5 (split; [done|]).
  rewrite Htotal, Htagged, Huntagged, <- Nat2Z.inj_add.
  by rewrite tagged_untagged_partition.
Qed.

(** C5, instance: a dry run over the sample library (one item tagged). *)
Lemma tagged_plus_untagged_is_total_witness :
  let out :=
    {| server_name := "radarr_1"; tagged_count := 1; untagged_count := 2;
       total_count := 3;
       data := map dry_entry [Samples.item 1 []; Samples.item 3 []] |} in
  outcome (process_instance true "radarr" Samples.defaults
             (Samples.app (Samples.server (Ok Samples.command) (Ok Samples.empty_queue))))
    = Ok out /\
  (0 < total_count out)%Z /\
  exists media_dict tag_id,
    Ok Samples.library = Ok media_dict /\
    Ok 7%Z = Ok tag_id /\
    total_count out = Z.of_nat (length media_dict) /\
    tagged_count out
      = Z.of_nat (length (filter (fun item => tag_id ∈ tags item) media_dict)) /\
    untagged_count out
      = Z.of_nat (length (filter (fun item => tag_id ∉ tags item) media_dict)) /\
    (tagged_count out + untagged_count out = total_count out)%Z.
Proof.
  intros out.
  split; [reflexivity|]. split; [reflexivity|].
  apply (tagged_plus_untagged_is_total true "radarr" Samples.defaults
           (Samples.app (Samples.server (Ok Samples.command) (Ok Samples.empty_queue))) out);
    reflexivity.
Defined.

(** A falsy value cannot be subscripted with a string key. *)
Lemma falsy_getitem v k :
  truthy v = false ->
  getitem v k = Raise TypeError \/ getitem v k = Raise (KeyError k).
Proof.
  destruct v as [| | | | |d]; simpl; try (by left).
  destruct d; [by right|done].
Qed.

Lemma filter_media_loop_trace tag_id count media_dict acc n :
  Forall (fun ev => tags_or_polls ev = false)
    (trace (filter_media_loop tag_id count media_dict acc n)).
Proof.
  revert acc n. induction media_dict as [|item rest IH]; intros acc n; simpl.
  - constructor.
  - destruct (n =? count)%Z; [constructor|].
    destruct (skipped tag_id item); [|apply IH].
    rewrite (trace_bind_ok _ _ tt) by reflexivity.
    apply Forall_app. split; [by repeat constructor|apply IH].
Qed.

Ltac trace_ok a := rewrite (trace_bind_ok _ _ a) by (simpl; done).
Ltac outcome_ok a := rewrite (outcome_bind_ok _ _ a) by (simpl; done).

(** C1: when the search trigger answers with a falsy value, no tagging
    call and no command-status call is made, but the subscript
    [response['id']] raises, so [process_instance] ends with an exception
    instead of returning a result. *)
Theorem falsy_search_response_raises
    instance_type settings app server media_dict tag_id filtered response :
  instance_name (remote app) = Ok server ->
  media (remote app) instance_type = Ok media_dict ->
  tag_id_of (remote app) (default "checked" (tag_name_setting settings))
    = Ok tag_id ->
  outcome (filter_media media_dict tag_id
             (default 2%Z (count_setting settings))) = Ok filtered ->
  search_response (remote app) (map media_id filtered) = Ok response ->
  truthy response = false ->
  (outcome (process_instance false instance_type settings app) = Raise TypeError
   \/ outcome (process_instance false instance_type settings app)
      = Raise (KeyError "id")) /\
  Forall (fun ev => tags_or_polls ev = false)
    (trace (process_instance false instance_type settings app)).
Proof.
  intros Hserver Hmedia Htag Hfiltered Hsearch Hfalsy.
  pose proof (falsy_getitem response "id" Hfalsy) as Hget.
  unfold process_instance. split.
  - outcome_ok server. do 6 outcome_ok tt.
    outcome_ok media_dict. outcome_ok tt. outcome_ok tag_id.
    outcome_ok filtered. outcome_ok tt.
    simpl negb. cbv iota.
    outcome_ok response.
    rewrite Hfalsy. outcome_ok response.
    destruct Hget as [Hget|Hget]; [left|right];
      by apply outcome_bind_raise.
  - trace_ok server. do 6 trace_ok tt.
    trace_ok media_dict. trace_ok tt. trace_ok tag_id.
    trace_ok filtered. trace_ok tt.
    simpl negb. cbv iota.
    trace_ok response.
    rewrite Hfalsy. trace_ok response.
    assert (Hlast : trace (lift (getitem response "id")) = []) by done.
    destruct Hget as [Hget|Hget];
      (erewrite trace_bind_raise by (simpl; exact Hget));
      rewrite Hlast; simpl;
      repeat (apply Forall_cons; split; [done|]);
      (apply Forall_app; split; [apply filter_media_loop_trace|]);
      by repeat constructor.
Qed.

(** C1, instance: the search trigger answers [None]. *)
Lemma falsy_search_response_raises_witness :
  let app := Samples.app (Samples.server (Ok PyNone) (Ok Samples.empty_queue)) in
  truthy PyNone = false /\
  (outcome (process_instance false "radarr" Samples.defaults app) = Raise TypeError
   \/ outcome (process_instance false "radarr" Samples.defaults app)
      = Raise (KeyError "id")) /\
  Forall (fun ev => tags_or_polls ev = false)
    (trace (process_instance false "radarr" Samples.defaults app)).
Proof.
  intros app. split; [reflexivity|].
  apply (falsy_search_response_raises "radarr" Samples.defaults app
           "radarr_1" Samples.library 7
           [Samples.item 1 []; Samples.item 3 []] PyNone);
    reflexivity.
Defined.

(** The whole run of that instance: the last call is the search trigger,
    and the result is the exception. *)
Example search_none_run :
  process_instance false "radarr" Samples.defaults
    (Samples.app (Samples.server (Ok PyNone) (Ok Samples.empty_queue)))
  = ([Called "http://radarr" get_instance_name;
      Log DEBUG (Table [["radarr Settings"]]);
      Log DEBUG (Setting "Count:" (PyInt 2));
      Log DEBUG (Setting "tag_name:" (PyStr "checked"));
      Log DEBUG (Setting "unattended:" (PyStr "Not Set"));
      Log DEBUG (Text "****************************************");
      Print "radarr_1";
      Called "http://radarr" (handle_starr_data "radarr");
      Log DEBUG (Dump "media_dict");
      Called "http://radarr" (get_tag_id_from_name "checked");
      Log DEBUG (Skipping (Samples.item 2 [7%Z]));
      Log DEBUG (Dump "filtered_media_dict");
      Called "http://radarr" (search_media [1%Z; 3%Z])],
     Raise TypeError).
Proof. reflexivity. Qed.

(** ** main *)

Lemma bind_ret_l {A B} (a : A) (f : A -> M B) : bind (ret a) f = f a.
Proof. unfold bind, ret. by destruct (f a). Qed.

Lemma bind_assoc {A B C} (m : M A) (f : A -> M B) (g : B -> M C) :
  bind (bind m f) g = bind m (fun a => bind (f a) g).
Proof.
  destruct m as [t [a|e]]; unfold bind; [|done].
  destruct (f a) as [t1 [b|e1]]; [|done].
  destruct (g b) as [t2 r]. by rewrite app_assoc.
Qed.

Lemma bind_ext {A B} (m : M A) (f g : A -> M B) :
  (forall a, f a = g a) -> bind m f = bind m g.
Proof.
  intros H. destruct m as [t [a|e]]; unfold bind; [|done]. by rewrite H.
Qed.

Section MainProps.
Variable world : string -> string -> Remote.
Variable cfg : Config.

Lemma instance_loop_run_jobs instance_type instance_data insts final :
  instance_loop world cfg instance_type instance_data insts final
  = run_jobs world cfg (instance_jobs instance_type instance_data insts) final.
Proof.
  revert final.
  induction insts as [|[instance settings] rest IH]; intros final; simpl;
    [done|].
  destruct (Dict.get instance instance_data) as [[u a]|]; [|apply IH].
  simpl. apply bind_ext. intros output. apply IH.
Qed.

Lemma run_jobs_app js1 js2 final :
  run_jobs world cfg (js1 ++ js2) final
  = bind (run_jobs world cfg js1 final) (run_jobs world cfg js2).
Proof.
  revert final. induction js1 as [|j js1 IH]; intros final; simpl.
  - by rewrite bind_ret_l.
  - rewrite bind_assoc. apply bind_ext. intros output. apply IH.
Qed.

(** The nested loops of [main] run the jobs one after the other. *)
Lemma type_loop_run_jobs types insts final :
  type_loop world cfg types insts final
  = run_jobs world cfg (jobs types insts) final.
Proof.
  revert final.
  induction types as [|[instance_type instance_data] rest IH];
    intros final; simpl; [done|].
  rewrite run_jobs_app, instance_loop_run_jobs.
  apply bind_ext. intros f. apply IH.
Qed.

(** The first job that raises ends the loop with its exception; the
    trace stops with the trace of that job. *)
Lemma run_jobs_raise pre job post e final :
  Forall (fun j => exists o, outcome (run_job world cfg j) = Ok o) pre ->
  outcome (run_job world cfg job) = Raise e ->
  outcome (run_jobs world cfg (pre ++ job :: post) final) = Raise e /\
  trace (run_jobs world cfg (pre ++ job :: post) final)
  = concat (map (fun j => trace (run_job world cfg j)) pre)
      ++ trace (run_job world cfg job).
Proof.
  intros Hpre Hjob. revert final.
  induction Hpre as [|j pre [o Ho] Hpre IH]; intros final; simpl.
  - split; [by apply outcome_bind_raise|].
    by erewrite trace_bind_raise.
  - rewrite (outcome_bind_ok _ _ _ Ho), (trace_bind_ok _ _ _ Ho).
    destruct (IH (Dict.set (job_instance j) o final)) as [-> ->].
    split; [done|]. by rewrite app_assoc.
Qed.
End MainProps.

Lemma Forall_trace_bind {A B} (P : Event -> Prop) (m : M A) (f : A -> M B) :
  Forall P (trace m) ->
  (forall a, outcome m = Ok a -> Forall P (trace (f a))) ->
  Forall P (trace (bind m f)).
Proof.
  intros Hm Hf. destruct (outcome m) as [a|e] eqn:Ho.
  - rewrite (trace_bind_ok _ _ _ Ho). apply Forall_app. auto.
  - by rewrite (trace_bind_raise _ _ _ Ho).
Qed.

Lemma filter_media_trace_all (P : Event -> Prop) media_dict tag_id count :
  (forall item, P (Log DEBUG (Skipping item))) ->
  Forall P (trace (filter_media media_dict tag_id count)).
Proof.
  intros HP. unfold filter_media. generalize (@nil Item) 0%Z.
  induction media_dict as [|item rest IH]; intros acc n; simpl.
  - constructor.
  - destruct (n =? count)%Z; [constructor|].
    destruct (skipped tag_id item); [|apply IH].
    apply Forall_trace_bind; [by repeat constructor|]. intros _ _. apply IH.
Qed.

Ltac trace_step :=
  lazymatch goal with
  | |- Forall _ (trace (bind _ _)) =>
      apply Forall_trace_bind; [|intros ? _]
  | |- Forall _ (trace (if ?b then _ else _)) => destruct b
  | |- Forall _ (trace (filter_media _ _ _)) =>
      by apply filter_media_trace_all
  | |- Forall _ (trace _) => by (simpl; repeat constructor)
  end.

(** Processing an instance reports nothing by itself. *)
Lemma process_instance_no_reports dry instance_type settings app :
  Forall (fun ev => reports ev = false)
    (trace (process_instance dry instance_type settings app)).
Proof. unfold process_instance. repeat trace_step. Qed.

Lemma banner_ok cfg : outcome (banner cfg) = Ok tt.
Proof. unfold banner. by destruct (dry_run cfg). Qed.

Lemma banner_no_reports cfg :
  Forall (fun ev => reports ev = false) (trace (banner cfg)).
Proof. unfold banner. destruct (dry_run cfg); by repeat constructor. Qed.

(** C4 (as amended): an exception raised while one instance is processed
    is not caught.  [main] ends with that exception; its trace is the
    banner, the traces of the instances processed before, and the trace
    of the failing instance up to the exception: no later instance is
    processed, and nothing is printed or notified. *)
Theorem instance_failure_aborts_run world cfg insts pre job post e :
  instances cfg = Some insts ->
  insts <> [] ->
  jobs (instances_config cfg) insts = pre ++ job :: post ->
  Forall (fun j => exists o, outcome (run_job world cfg j) = Ok o) pre ->
  outcome (run_job world cfg job) = Raise e ->
  outcome (main world cfg) = Raise e /\
  trace (main world cfg)
  = trace (banner cfg)
      ++ concat (map (fun j => trace (run_job world cfg j)) pre)
      ++ trace (run_job world cfg job) /\
  Forall (fun ev => reports ev = false) (trace (main world cfg)).
Proof.
  intros Hinsts Hne Hjobs Hpre Hjob.
  destruct (run_jobs_raise world cfg pre job post e [] Hpre Hjob)
    as [Hout Htrace].
  assert (Hmain_out : outcome (main world cfg) = Raise e).
  { unfold main. rewrite (outcome_bind_ok _ _ tt (banner_ok cfg)), Hinsts.
    destruct insts as [|i rest]; [done|].
    apply outcome_bind_raise.
    by rewrite type_loop_run_jobs, Hjobs. }
  assert (Hmain_trace : trace (main world cfg)
    = trace (banner cfg)
        ++ concat (map (fun j => trace (run_job world cfg j)) pre)
        ++ trace (run_job world cfg job)).
  { unfold main. rewrite (trace_bind_ok _ _ tt (banner_ok cfg)), Hinsts.
    destruct insts as [|i rest]; [done|].
    f_equal. erewrite trace_bind_raise.
    - by rewrite type_loop_run_jobs, Hjobs.
    - rewrite type_loop_run_jobs, Hjobs. exact Hout. }
  split; [done|]. split; [done|].
  rewrite Hmain_trace.
  apply Forall_app. split; [apply banner_no_reports|].
  apply Forall_app. split; [|apply process_instance_no_reports].
  apply Forall_concat, Forall_map, Forall_forall.
  intros j _. apply process_instance_no_reports.
Qed.

(** C4, instance: the sample configuration, whose first instance fails
    at the queue request. *)
Lemma instance_failure_aborts_run_witness :
  let radarr_job :=
    {| job_type := "radarr"; job_instance := "radarr_1";
       job_settings := Samples.defaults; job_url := "http://radarr";
       job_api := "key" |} in
  let sonarr_job :=
    {| job_type := "sonarr"; job_instance := "sonarr_1";
       job_settings := Samples.defaults; job_url := "http://sonarr";
       job_api := "key" |} in
  let e := RemoteError "queue request failed" in
  outcome (run_job Samples.failing_world Samples.two_instances radarr_job)
    = Raise e /\
  outcome (main Samples.failing_world Samples.two_instances) = Raise e /\
  trace (main Samples.failing_world Samples.two_instances)
  = trace (banner Samples.two_instances)
      ++ concat (map (fun j => trace (run_job Samples.failing_world
                                        Samples.two_instances j)) [])
      ++ trace (run_job Samples.failing_world Samples.two_instances radarr_job) /\
  Forall (fun ev => reports ev = false)
    (trace (main Samples.failing_world Samples.two_instances)).
Proof.
  intros radarr_job sonarr_job e.
  split; [reflexivity|].
  apply (instance_failure_aborts_run Samples.failing_world
           Samples.two_instances
           [("radarr_1", Samples.defaults); ("sonarr_1", Samples.defaults)]
           [] radarr_job [sonarr_job] e).
  - reflexivity.
  - discriminate.
  - reflexivity.
  - constructor.
  - reflexivity.
Defined.

(** C4 as stated fails: with two instances configured and the queue
    request of the first one failing, the run ends with that exception
    right after the failed call; the second instance is never contacted
    and no report or notification is produced. *)
Lemma failing_instance_stops_run :
  main Samples.failing_world Samples.two_instances
  = ([Called "http://radarr" get_instance_name;
      Log DEBUG (Table [["radarr Settings"]]);
      Log DEBUG (Setting "Count:" (PyInt 2));
      Log DEBUG (Setting "tag_name:" (PyStr "checked"));
      Log DEBUG (Setting "unattended:" (PyStr "Not Set"));
      Log DEBUG (Text "****************************************");
      Print "radarr_1";
      Called "http://radarr" (handle_starr_data "radarr");
      Log DEBUG (Dump "media_dict");
      Called "http://radarr" (get_tag_id_from_name "checked");
      Log DEBUG (Skipping (Samples.item 2 [7%Z]));
      Log DEBUG (Dump "filtered_media_dict");
      Called "http://radarr" (search_media [1%Z; 3%Z]);
      Called "http://radarr" (add_tags [1%Z; 3%Z] 7);
      Called "http://radarr" (get_command_status (PyInt 5));
      Sleep 3;
      Called "http://radarr" (get_queue "radarr")],
     Raise (RemoteError "queue request failed")).
Proof. reflexivity. Qed.

(** C9 (as amended): with no instance configured, [main] logs the error
    and leaves through [exit()] before any instance is contacted and
    without any report; [exit()] carries no code, which is exit status
    0. *)
Theorem no_instances_exits world cfg :
  instances cfg = None \/ instances cfg = Some [] ->
  main world cfg
  = (trace (banner cfg)
       ++ [Log ERROR (Text "No instances found in config file.")],
     Raise (SystemExit None)) /\
  exit_status None = 0%Z.
Proof.
  intros H. split; [|done].
  unfold main.
  assert (Hb : banner cfg = (trace (banner cfg), Ok tt)).
  { unfold banner. by destruct (dry_run cfg). }
  rewrite Hb. simpl trace.
  by destruct H as [-> | ->].
Qed.

(** C9, instance: the sample configuration without instances. *)
Lemma no_instances_exits_witness :
  instances Samples.no_instances = None /\
  main Samples.failing_world Samples.no_instances
  = ([Log ERROR (Text "No instances found in config file.")],
     Raise (SystemExit None)) /\
  exit_status None = 0%Z.
Proof.
  split; [reflexivity|].
  apply (no_instances_exits Samples.failing_world Samples.no_instances).
  by left.
Defined.

(** C9 as stated fails: the run without instances leaves with an exit
    status that is not nonzero. *)
Lemma no_instances_exit_status_zero :
  exists code,
    outcome (main Samples.failing_world Samples.no_instances)
      = Raise (SystemExit code) /\
    ~ (exit_status code <> 0%Z).
Proof. exists None. split; [reflexivity|]. intros H. by apply H. Qed.

(** ** Reconciliation: the data list of a non-dry run *)

Lemma has_match_iff queue_dict item :
  has_match queue_dict item = true <->
  exists q, q ∈ queue_dict /\ q_media_id q = media_id item.
Proof.
  unfold has_match. rewrite existsb_exists. split.
  - intros (q & Hq & Heq). exists q. split; [by apply list_elem_of_In|].
    symmetry. by apply Z.eqb_eq.
  - intros (q & Hq & Heq). exists q. split; [by apply list_elem_of_In|].
    apply Z.eqb_eq. by symmetry.
Qed.

Lemma dict_set_truthy k v (d : list (string * PyVal)) :
  truthy (PyDict (Dict.set k v d)) = true.
Proof. destruct d as [|[k' v'] d]; simpl; [done|]. by destruct (String.eqb k' k). Qed.

Lemma torrents_loop_truthy item queue_dict acc :
  truthy (PyDict (torrents_loop item queue_dict acc))
  = truthy (PyDict acc) || has_match queue_dict item.
Proof.
  unfold has_match. revert acc.
  induction queue_dict as [|q rest IH]; intros acc; cbn [torrents_loop existsb].
  - by rewrite orb_false_r.
  - destruct (media_id item =? q_media_id q)%Z; cbn [orb].
    + by rewrite IH, dict_set_truthy, orb_true_r.
    + apply IH.
Qed.

Lemma data_loop_empty_queue filtered acc : data_loop filtered [] acc = Ok acc.
Proof. induction filtered as [|item rest IH]; simpl; [done|apply IH]. Qed.

(** With a queue that is not empty, the loop appends one entry for each
    selected item that has a match, and every entry carries the score of
    the last element of [queue_dict]. *)
Lemma data_loop_spec filtered queue_dict ql acc :
  last queue_dict = Some ql ->
  data_loop filtered queue_dict acc
  = Ok (acc ++ map (fun item =>
                      entry_dict item (torrents_loop item queue_dict []) ql)
                 (filter (fun item => has_match queue_dict item = true) filtered)).
Proof.
  intros Hlast. revert acc.
  induction filtered as [|item rest IH]; intros acc; cbn [data_loop].
  - by rewrite app_nil_r.
  - rewrite (torrents_loop_truthy item queue_dict []), Hlast.
    cbn [truthy orb data_entry].
    destruct (has_match queue_dict item) eqn:Hm.
    + rewrite IH, filter_cons_True by done. simpl. by rewrite <- app_assoc.
    + rewrite IH, filter_cons_False by congruence. done.
Qed.

(** C6 (as amended): the reconciliation loop never raises, and the data
    list holds, in the order of the selection, exactly the selected items
    that match at least one element of [queue_dict]; a selected item
    without a match gets no entry. *)
Theorem data_holds_matched_items filtered queue_dict :
  exists entries,
    data_loop filtered queue_dict [] = Ok entries /\
    map (Dict.get "media_id") entries
    = map (fun item => Some (PyInt (media_id item)))
        (filter (fun item => has_match queue_dict item = true) filtered).
Proof.
  destruct (last queue_dict) as [ql|] eqn:Hlast.
  - eexists. split; [by apply data_loop_spec|].
    simpl. by rewrite <- list_fmap_compose.
  - apply last_None in Hlast as ->.
    exists []. split; [apply data_loop_empty_queue|].
    simpl. induction filtered as [|item rest IH]; [done|].
    by rewrite filter_cons_False.
Qed.

(** C6 as stated fails: movies 1 and 3 are selected, the queue holds a
    release for movie 1 only, and the data list has the entry of movie 1
    and none for movie 3. *)
Lemma unmatched_item_is_left_out :
  outcome (filter_media Samples.library 7 2)
    = Ok [Samples.item 1 []; Samples.item 3 []] /\
  outcome (process_instance false "radarr" Samples.defaults
             (Samples.app (Samples.server (Ok Samples.command) (Ok Samples.queue1))))
  = Ok {| server_name := "radarr_1"; tagged_count := 1; untagged_count := 2;
          total_count := 3;
          data := [[("media_id", PyInt 1); ("title", PyStr "Film");
                    ("year", PyInt 2020);
                    ("torrents", PyDict [("Film.One.1080p", PyInt 10)]);
                    ("torrent_custom_format_score", PyInt 10)]] |}.
Proof. split; vm_compute; reflexivity. Qed.

(** Whatever the item, its entry carries the score of the last element
    of [queue_dict]. *)
Lemma data_loop_top_level_score filtered queue_dict ql entries :
  last queue_dict = Some ql ->
  data_loop filtered queue_dict [] = Ok entries ->
  Forall (fun entry =>
            Dict.get "torrent_custom_format_score" entry
            = Some (PyInt (torrent_custom_format_score ql))) entries.
Proof.
  intros Hlast. rewrite (data_loop_spec _ _ _ _ Hlast). intros [= <-].
  simpl. apply Forall_map, Forall_forall. by intros item _.
Qed.

(** C8: movies 1 and 3 are selected and the queue holds one release for
    each, with scores 10 and 20.  Whichever of the two comes last in
    [queue_dict], both entries carry its score: the entry of the other
    movie has a top-level score that is not the score of its own
    release. *)
Theorem top_level_score_of_other_item :
  data_loop [Samples.item 1 []; Samples.item 3 []] [Samples.q1; Samples.q3] []
  = Ok [[("media_id", PyInt 1); ("title", PyStr "Film"); ("year", PyInt 2020);
         ("torrents", PyDict [("Film.One.1080p", PyInt 10)]);
         ("torrent_custom_format_score", PyInt 20)];
        [("media_id", PyInt 3); ("title", PyStr "Film"); ("year", PyInt 2020);
         ("torrents", PyDict [("Film.Three.2160p", PyInt 20)]);
         ("torrent_custom_format_score", PyInt 20)]] /\
  data_loop [Samples.item 1 []; Samples.item 3 []] [Samples.q3; Samples.q1] []
  = Ok [[("media_id", PyInt 1); ("title", PyStr "Film"); ("year", PyInt 2020);
         ("torrents", PyDict [("Film.One.1080p", PyInt 10)]);
         ("torrent_custom_format_score", PyInt 10)];
        [("media_id", PyInt 3); ("title", PyStr "Film"); ("year", PyInt 2020);
         ("torrents", PyDict [("Film.Three.2160p", PyInt 20)]);
         ("torrent_custom_format_score", PyInt 10)]] /\
  exists queue_dict,
    process_queue Samples.queue13 "radarr" [1%Z; 3%Z] = Ok queue_dict /\
    queue_dict ≡ₚ [Samples.q1; Samples.q3].
Proof.
  split; [reflexivity|]. split; [reflexivity|].
  eexists. split; [vm_compute; reflexivity|]. reflexivity.
Qed.

(** ** Reports of a dry run *)

Lemma print_item_dry item :
  outcome (print_item (dry_entry item)) = Raise (KeyError "torrents").
Proof. reflexivity. Qed.

Lemma notification_item_dry item :
  outcome (notification_item (dry_entry item)) = Raise (KeyError "torrents").
Proof. reflexivity. Qed.

Lemma print_instance_dry instance out filtered :
  data out = map dry_entry filtered ->
  (filtered = [] /\ outcome (print_instance (instance, out)) = Ok tt) \/
  (filtered <> [] /\
   outcome (print_instance (instance, out)) = Raise (KeyError "torrents")).
Proof.
  intros Hdata. unfold print_instance. rewrite Hdata.
  destruct filtered as [|item rest]; [by left|right].
  split; [done|]. cbn [map for_each].
  rewrite (outcome_bind_ok _ _ tt) by reflexivity.
  apply outcome_bind_raise, print_item_dry.
Qed.

Lemma server_list_loop_dry filtered :
  (filtered = [] /\ outcome (server_list_loop (map dry_entry filtered) []) = Ok []) \/
  (filtered <> [] /\
   outcome (server_list_loop (map dry_entry filtered) [])
   = Raise (KeyError "torrents")).
Proof.
  destruct filtered as [|item rest]; [by left|right].
  split; [done|]. cbn [map server_list_loop].
  apply outcome_bind_raise, notification_item_dry.
Qed.

Lemma dry_results_data outs :
  dry_results outs ->
  Forall (fun e => exists filtered, data (snd e) = map dry_entry filtered) outs.
Proof.
  intros Hdry. eapply Forall_impl; [exact Hdry|].
  intros [instance out] (ty & settings & app & H).
  apply process_instance_ok_inv in H
    as (_ & _ & _ & filtered & _ & _ & _ & _ & _ & _ & _ & _ & Hdata).
  exists filtered. by apply Hdata.
Qed.

Lemma print_output_dry outs :
  Forall (fun e => exists filtered, data (snd e) = map dry_entry filtered) outs ->
  Exists (fun e => data (snd e) <> []) outs ->
  outcome (print_output outs) = Raise (KeyError "torrents").
Proof.
  unfold print_output.
  induction 1 as [|[instance out] outs [filtered Hdata] Hrest IH];
    intros Hex; [by apply Exists_nil in Hex|].
  cbn [for_each]. simpl in Hdata.
  destruct (print_instance_dry instance out filtered Hdata)
    as [[-> Hok]|[Hne Hraise]].
  - rewrite (outcome_bind_ok _ _ tt Hok). apply IH.
    apply Exists_cons in Hex as [Hhere|Hthere]; [|done].
    simpl in Hhere. by rewrite Hdata in Hhere.
  - by apply outcome_bind_raise.
Qed.

Lemma fields_loop_dry outs fields :
  Forall (fun e => exists filtered, data (snd e) = map dry_entry filtered) outs ->
  Exists (fun e => data (snd e) <> []) outs ->
  outcome (fields_loop outs fields) = Raise (KeyError "torrents").
Proof.
  induction 1 as [|[instance out] outs [filtered Hdata] Hrest IH];
    intros Hex; [by apply Exists_nil in Hex|].
  cbn [fields_loop]. simpl in Hdata. rewrite Hdata.
  destruct (server_list_loop_dry filtered) as [[-> Hok]|[Hne Hraise]].
  - rewrite (outcome_bind_ok _ _ [] Hok). apply IH.
    apply Exists_cons in Hex as [Hhere|Hthere]; [|done].
    simpl in Hhere. by rewrite Hdata in Hhere.
  - by apply outcome_bind_raise.
Qed.

(** C10: the entries of a dry run have the keys [torrent] and
    [torrent_custom_format_score], both [None], and no key [torrents];
    so for the results of a dry run in which some instance selected at
    least one item, [print_output] and [notification] both end with
    [KeyError: 'torrents']. *)
Theorem dry_run_reports_raise_key_error outs :
  dry_results outs ->
  Exists (fun e => data (snd e) <> []) outs ->
  Forall (fun e =>
    Forall (fun entry =>
      Dict.keys entry
      = ["media_id"; "title"; "year"; "torrent"; "torrent_custom_format_score"]
      /\ Dict.get "torrent" entry = Some PyNone
      /\ Dict.get "torrent_custom_format_score" entry = Some PyNone
      /\ Dict.get "torrents" entry = None) (data (snd e))) outs /\
  outcome (print_output outs) = Raise (KeyError "torrents") /\
  outcome (notification true outs) = Raise (KeyError "torrents").
Proof.
  intros Hdry Hex. apply dry_results_data in Hdry.
  split.
  - eapply Forall_impl; [exact Hdry|].
    intros [instance out] [filtered Hdata]. simpl in *. rewrite Hdata.
    apply Forall_map, Forall_forall. by intros item _.
  - split; [by apply print_output_dry|].
    unfold notification. apply outcome_bind_raise. by apply fields_loop_dry.
Qed.

(** C10, instance: a dry run over the sample library selects movies 1
    and 3. *)
Lemma dry_run_reports_raise_key_error_witness :
  let out :=
    {| server_name := "radarr_1"; tagged_count := 1; untagged_count := 2;
       total_count := 3;
       data := map dry_entry [Samples.item 1 []; Samples.item 3 []] |} in
  let outs := [("radarr_1", out)] in
  dry_results outs /\
  Exists (fun e => data (snd e) <> []) outs /\
  Forall (fun e =>
    Forall (fun entry =>
      Dict.keys entry
      = ["media_id"; "title"; "year"; "torrent"; "torrent_custom_format_score"]
      /\ Dict.get "torrent" entry = Some PyNone
      /\ Dict.get "torrent_custom_format_score" entry = Some PyNone
      /\ Dict.get "torrents" entry = None) (data (snd e))) outs /\
  outcome (print_output outs) = Raise (KeyError "torrents") /\
  outcome (notification true outs) = Raise (KeyError "torrents").
Proof.
  intros out outs.
  assert (Hdry : dry_results outs).
  { constructor; [|constructor].
    exists "radarr", Samples.defaults,
      (Samples.app (Samples.server (Ok Samples.command) (Ok Samples.empty_queue))).
    reflexivity. }
  assert (Hex : Exists (fun e => data (snd e) <> []) outs).
  { constructor. discriminate. }
  split; [exact Hdry|]. split; [exact Hex|].
  exact (dry_run_reports_raise_key_error outs Hdry Hex).
Defined.

(** A whole dry run over the sample library: the two selected items are
    gathered without any search, tagging or queue call, and the report
    stops at the first entry. *)
Example dry_run_main :
  main Samples.failing_world Samples.dry_instance
  = ([Log INFO (Table [["Dry Run"]; ["NO CHANGES WILL BE MADE"]]);
      Called "http://radarr" get_instance_name;
      Log DEBUG (Table [["radarr Settings"]]);
      Log DEBUG (Setting "Count:" (PyInt 2));
      Log DEBUG (Setting "tag_name:" (PyStr "checked"));
      Log DEBUG (Setting "unattended:" (PyStr "Not Set"));
      Log DEBUG (Text "****************************************");
      Print "radarr_1";
      Called "http://radarr" (handle_starr_data "radarr");
      Log DEBUG (Dump "media_dict");
      Called "http://radarr" (get_tag_id_from_name "checked");
      Log DEBUG (Skipping (Samples.item 2 [7%Z]));
      Log DEBUG (Dump "filtered_media_dict");
      Log DEBUG (Dump "final_output_dict");
      Log INFO (Table [["radarr_1"]]);
      Log INFO (ItemLine (PyStr "Film") (PyInt 2020))],
     Raise (KeyError "torrents")).
Proof. reflexivity. Qed.

(** ** Failures of the client between search trigger and queue fetch *)

Section ClientFailure.
Variables (instance_type : string) (settings : InstanceSettings) (app : StARR).
Variables (server : string) (media_dict filtered : list Item) (tag_id : Z).
Hypothesis Hserver : instance_name (remote app) = Ok server.
Hypothesis Hmedia : media (remote app) instance_type = Ok media_dict.
Hypothesis Htag :
  tag_id_of (remote app) (default "checked" (tag_name_setting settings))
  = Ok tag_id.
Hypothesis Hfiltered :
  outcome (filter_media media_dict tag_id
             (default 2%Z (count_setting settings))) = Ok filtered.

Let media_ids := map media_id filtered.
Let run := process_instance false instance_type settings app.

Ltac to_search :=
  subst run; unfold process_instance;
  outcome_ok server; do 6 outcome_ok tt;
  outcome_ok media_dict; outcome_ok tt; outcome_ok tag_id;
  outcome_ok filtered; outcome_ok tt;
  simpl negb; cbv iota.

Lemma search_failure_propagates e :
  search_response (remote app) media_ids = Raise e ->
  outcome run = Raise e.
Proof. intros H. to_search. by apply outcome_bind_raise. Qed.

Lemma add_tags_failure_propagates response e :
  search_response (remote app) media_ids = Ok response ->
  truthy response = true ->
  add_tags_response (remote app) media_ids tag_id = Raise e ->
  outcome run = Raise e.
Proof.
  intros Hs Ht H. to_search. outcome_ok response. rewrite Ht.
  by apply outcome_bind_raise.
Qed.

Lemma command_status_failure_propagates response response' command_id e :
  search_response (remote app) media_ids = Ok response ->
  truthy response = true ->
  add_tags_response (remote app) media_ids tag_id = Ok response' ->
  getitem response' "id" = Ok command_id ->
  command_status (remote app) command_id = Raise e ->
  outcome run = Raise e.
Proof.
  intros Hs Ht Ha Hid H. to_search. outcome_ok response. rewrite Ht.
  outcome_ok response'. outcome_ok command_id.
  by apply outcome_bind_raise.
Qed.

Lemma get_queue_failure_propagates response response' command_id ready e :
  search_response (remote app) media_ids = Ok response ->
  truthy response = true ->
  add_tags_response (remote app) media_ids tag_id = Ok response' ->
  getitem response' "id" = Ok command_id ->
  command_status (remote app) command_id = Ok ready ->
  truthy ready = true ->
  queue_of (remote app) instance_type = Raise e ->
  outcome run = Raise e.
Proof.
  intros Hs Ht Ha Hid Hc Hr H. to_search. outcome_ok response. rewrite Ht.
  outcome_ok response'. outcome_ok command_id. outcome_ok ready.
  outcome_ok tt. rewrite Hr.
  by apply outcome_bind_raise.
Qed.
End ClientFailure.

(** The run behind C8: with the queue of the two releases, both entries
    of the result carry score 20. *)
Example both_entries_carry_last_score :
  outcome (process_instance false "radarr" Samples.defaults
             (Samples.app (Samples.server (Ok Samples.command) (Ok Samples.queue13))))
  = Ok {| server_name := "radarr_1"; tagged_count := 1; untagged_count := 2;
          total_count := 3;
          data := [[("media_id", PyInt 1); ("title", PyStr "Film");
                    ("year", PyInt 2020);
                    ("torrents", PyDict [("Film.One.1080p", PyInt 10)]);
                    ("torrent_custom_format_score", PyInt 20)];
                   [("media_id", PyInt 3); ("title", PyStr "Film");
                    ("year", PyInt 2020);
                    ("torrents", PyDict [("Film.Three.2160p", PyInt 20)]);
                    ("torrent_custom_format_score", PyInt 20)]] |}.
Proof. vm_compute. reflexivity. Qed.

(** * Further properties of the code *)

(** ** filter_media: what is selected and what is logged *)

(** X1: For a limit that is not negative the selection is exactly the first
    [count] eligible items of the input; when no more than [count] items
    are eligible, it is all of them. *)
Theorem filter_media_takes_first_eligible media_dict tag_id count :
  (0 <= count)%Z ->
  outcome (filter_media media_dict tag_id count)
  = Ok (take (Z.to_nat count) (filter (eligible tag_id) media_dict)) /\
  ((Z.of_nat (length (filter (eligible tag_id) media_dict)) <= count)%Z ->
   outcome (filter_media media_dict tag_id count)
   = Ok (filter (eligible tag_id) media_dict)).
Proof.
  intros Hcount. rewrite filter_media_nonneg by done.
  split; [done|]. intros Hfew. f_equal. apply take_ge. lia.
Qed.

(** X1, instance on the sample data. *)
Lemma filter_media_takes_first_eligible_witness :
  (0 <= 5)%Z /\
  outcome (filter_media Samples.library 7 5)
  = Ok (take (Z.to_nat 5) (filter (eligible 7) Samples.library)) /\
  ((Z.of_nat (length (filter (eligible 7) Samples.library)) <= 5)%Z ->
   outcome (filter_media Samples.library 7 5)
   = Ok (filter (eligible 7) Samples.library)).
Proof.
  split; [lia|].
  apply (filter_media_takes_first_eligible Samples.library 7 5). lia.
Defined.

Lemma filter_media_sublist media_dict tag_id count :
  exists r, outcome (filter_media media_dict tag_id count) = Ok r /\
            r `sublist_of` media_dict.
Proof.
  destruct (Z.lt_ge_cases count 0).
  - rewrite filter_media_negative by done. eexists. split; [done|].
    apply sublist_filter.
  - rewrite filter_media_nonneg by done. eexists. split; [done|].
    etrans; [apply sublist_take|apply sublist_filter].
Qed.

Lemma sublist_map {A B} (f : A -> B) (l1 l2 : list A) :
  l1 `sublist_of` l2 -> map f l1 `sublist_of` map f l2.
Proof. induction 1; simpl; by constructor. Qed.

(** X2: When the ids of the library are pairwise different, so are the ids
    of the selection: no item is selected twice. *)
Theorem filter_media_unique_ids media_dict tag_id count :
  NoDup (map media_id media_dict) ->
  exists r, outcome (filter_media media_dict tag_id count) = Ok r /\
            NoDup (map media_id r).
Proof.
  intros Hnodup.
  destruct (filter_media_sublist media_dict tag_id count) as (r & Hr & Hsub).
  exists r. split; [done|].
  eapply sublist_NoDup; [exact Hnodup|]. by apply sublist_map.
Qed.

(** X2, instance on the sample data. *)
Lemma filter_media_unique_ids_witness :
  NoDup (map media_id Samples.library) /\
  exists r, outcome (filter_media Samples.library 7 2) = Ok r /\
            NoDup (map media_id r).
Proof.
  assert (H : NoDup (map media_id Samples.library)).
  { simpl. repeat (constructor; [set_solver|]). constructor. }
  split; [exact H|].
  exact (filter_media_unique_ids Samples.library 7 2 H).
Defined.

(** X3: Raising the limit only appends items: the selection for a limit is a
    prefix of the selection for any larger limit. *)
Theorem filter_media_limit_monotone media_dict tag_id n m :
  (0 <= n <= m)%Z ->
  exists r1 r2,
    outcome (filter_media media_dict tag_id n) = Ok r1 /\
    outcome (filter_media media_dict tag_id m) = Ok r2 /\
    r1 `prefix_of` r2.
Proof.
  intros [Hn Hm]. rewrite !filter_media_nonneg by lia.
  eexists _, _. split; [done|]. split; [done|].
  replace (Z.to_nat n) with (min (Z.to_nat n) (Z.to_nat m)) by lia.
  rewrite <- take_take. apply prefix_take.
Qed.

(** X3, instance on the sample data. *)
Lemma filter_media_limit_monotone_witness :
  (0 <= 1 <= 2)%Z /\
  exists r1 r2,
    outcome (filter_media Samples.library 7 1) = Ok r1 /\
    outcome (filter_media Samples.library 7 2) = Ok r2 /\
    r1 `prefix_of` r2.
Proof.
  split; [lia|].
  apply (filter_media_limit_monotone Samples.library 7 1 2). lia.
Defined.

Lemma filter_media_loop_skip_log tag_id count media_dict acc n :
  Forall (fun ev => exists item,
            ev = Log DEBUG (Skipping item) /\ item ∈ media_dict /\
            skipped tag_id item = true)
    (trace (filter_media_loop tag_id count media_dict acc n)).
Proof.
  revert acc n. induction media_dict as [|item rest IH]; intros acc n; simpl.
  - constructor.
  - destruct (n =? count)%Z; [constructor|].
    destruct (skipped tag_id item) eqn:Hs.
    + rewrite (trace_bind_ok _ _ tt) by reflexivity. simpl.
      constructor.
      * exists item. split; [done|]. split; [by left|done].
      * eapply Forall_impl; [apply IH|].
        intros ev (i & -> & Hi & Hsk). exists i.
        split; [done|]. split; [by right|done].
    + eapply Forall_impl; [apply IH|].
      intros ev (i & -> & Hi & Hsk). exists i.
      split; [done|]. split; [by right|done].
Qed.

Lemma filter_media_loop_full_log tag_id count media_dict acc n :
  (count < n \/
   n + Z.of_nat (length (filter (eligible tag_id) media_dict)) < count)%Z ->
  trace (filter_media_loop tag_id count media_dict acc n)
  = map (fun item => Log DEBUG (Skipping item))
      (filter (fun item => skipped tag_id item = true) media_dict).
Proof.
  revert acc n. induction media_dict as [|item rest IH]; intros acc n H; simpl.
  - done.
  - destruct (skipped tag_id item) eqn:Hs.
    + rewrite filter_cons_False in H by (unfold eligible; congruence).
      destruct (Z.eqb_spec n count) as [->|Hne]; [lia|].
      rewrite (trace_bind_ok _ _ tt) by reflexivity.
      rewrite IH by done. by rewrite filter_cons_True.
    + rewrite filter_cons_True in H by exact Hs. simpl length in H.
      destruct (Z.eqb_spec n count) as [->|Hne]; [lia|].
      rewrite IH by lia. rewrite filter_cons_False; [done|congruence].
Qed.

(** X4: The only effect of the selection is one debug line per skipped
    item: every line names an item of the input that meets the skip
    condition, and when the loop is not stopped by the limit (the limit
    is negative or larger than the number of eligible items) there is
    exactly one line for each such item, in input order. *)
Theorem filter_media_logs_skipped_items media_dict tag_id count :
  Forall (fun ev => exists item,
            ev = Log DEBUG (Skipping item) /\ item ∈ media_dict /\
            skipped tag_id item = true)
    (trace (filter_media media_dict tag_id count)) /\
  ((count < 0 \/
    Z.of_nat (length (filter (eligible tag_id) media_dict)) < count)%Z ->
   trace (filter_media media_dict tag_id count)
   = map (fun item => Log DEBUG (Skipping item))
       (filter (fun item => skipped tag_id item = true) media_dict)).
Proof.
  split; [apply filter_media_loop_skip_log|].
  intros H. apply filter_media_loop_full_log. lia.
Qed.

(** X4, instance on the sample data. *)
Lemma filter_media_logs_skipped_items_witness :
  (3 < 0 \/
   Z.of_nat (length (filter (eligible 7) Samples.library)) < 3)%Z /\
  trace (filter_media Samples.library 7 3)
  = map (fun item => Log DEBUG (Skipping item))
      (filter (fun item => skipped 7 item = true) Samples.library).
Proof.
  assert (H : (3 < 0 \/
    Z.of_nat (length (filter (eligible 7) Samples.library)) < 3)%Z).
  { right. vm_compute. reflexivity. }
  split; [exact H|].
  exact (proj2 (filter_media_logs_skipped_items Samples.library 7 3) H).
Defined.

(** ** process_queue: content of the result, errors, order of records *)

Lemma process_queue_loop_elem id_type media_ids recs acc queue_dict :
  process_queue_loop id_type media_ids recs acc = Ok queue_dict ->
  forall q, q ∈ queue_dict <->
    q ∈ acc \/
    exists r idt m, r ∈ recs /\ id_type = Some idt /\
      record_id idt r = Ok m /\ m ∈ media_ids /\ q = queue_item_of m r.
Proof.
  revert acc. induction recs as [|r0 recs IH]; intros acc; simpl.
  - intros [= ->] q. split; [by left|].
    intros [H|(r & _ & _ & Hr & _)]; [done|]. by apply elem_of_nil in Hr.
  - destruct id_type as [idt|] eqn:Hty; [|done].
    destruct (record_id idt r0) as [m0|e] eqn:Hid; [|done].
    case_bool_decide as Hin; intros Hloop q; rewrite (IH _ Hloop q).
    + rewrite elem_of_app, list_elem_of_singleton. split.
      * intros [[H| ->]|(r & idt' & m & Hr & Hidt & Hrid & Hm & Hq)].
        -- by left.
        -- right. exists r0, idt, m0. split; [by left|done].
        -- right. exists r, idt', m. split; [by right|done].
      * intros [H|(r & idt' & m & Hr & Hidt & Hrid & Hm & Hq)];
          [by left; left|].
        apply elem_of_cons in Hr as [->|Hr].
        -- injection Hidt as <-. rewrite Hid in Hrid.
           injection Hrid as <-. left. by right.
        -- right. by exists r, idt', m.
    + split.
      * intros [H|(r & idt' & m & Hr & Hidt & Hrid & Hm & Hq)]; [by left|].
        right. exists r, idt', m. split; [by right|done].
      * intros [H|(r & idt' & m & Hr & Hidt & Hrid & Hm & Hq)]; [by left|].
        apply elem_of_cons in Hr as [->|Hr].
        -- injection Hidt as <-. rewrite Hid in Hrid.
           injection Hrid as <-. done.
        -- right. by exists r, idt', m.
Qed.

(** X5: When [process_queue] returns, its result holds exactly the
    associations built from the records whose id is among [media_ids];
    in particular no association is about an item outside [media_ids]. *)
Theorem process_queue_associations queue instance_type media_ids queue_dict :
  process_queue queue instance_type media_ids = Ok queue_dict ->
  exists recs,
    records queue = Some recs /\
    (forall q, q ∈ queue_dict <->
       exists r idt m, r ∈ recs /\ id_type_of instance_type = Some idt /\
         record_id idt r = Ok m /\ m ∈ media_ids /\ q = queue_item_of m r) /\
    Forall (fun q => q_media_id q ∈ media_ids) queue_dict.
Proof.
  unfold process_queue.
  destruct (records queue) as [recs|]; [|done].
  destruct (process_queue_loop _ _ recs []) as [qd|e] eqn:Hloop; [|done].
  intros [= <-]. exists recs. split; [done|].
  assert (Hchar : forall q, q ∈ elements (queue_set qd) <->
    exists r idt m, r ∈ recs /\ id_type_of instance_type = Some idt /\
      record_id idt r = Ok m /\ m ∈ media_ids /\ q = queue_item_of m r).
  { intros q. unfold queue_set.
    rewrite elem_of_elements, elem_of_list_to_set.
    rewrite (process_queue_loop_elem _ _ _ _ _ Hloop q).
    split; [|by right]. intros [H|H]; [|done]. by apply elem_of_nil in H. }
  split; [exact Hchar|].
  apply Forall_forall. intros q Hq.
  apply Hchar in Hq as (r & idt & m & _ & _ & _ & Hm & ->). done.
Qed.

(** X5, instance on the sample data. *)
Lemma process_queue_associations_witness :
  process_queue Samples.queue13 "radarr" [3%Z] = Ok [Samples.q3] /\
  exists recs,
    records Samples.queue13 = Some recs /\
    (forall q, q ∈ [Samples.q3] <->
       exists r idt m, r ∈ recs /\ id_type_of "radarr" = Some idt /\
         record_id idt r = Ok m /\ m ∈ [3%Z] /\ q = queue_item_of m r) /\
    Forall (fun q => q_media_id q ∈ [3%Z]) [Samples.q3].
Proof.
  assert (H : process_queue Samples.queue13 "radarr" [3%Z] = Ok [Samples.q3])
    by (vm_compute; reflexivity).
  split; [exact H|].
  exact (process_queue_associations Samples.queue13 "radarr" [3%Z]
           [Samples.q3] H).
Defined.

Lemma id_type_of_other instance_type :
  instance_type <> "radarr" -> instance_type <> "sonarr" ->
  id_type_of instance_type = None.
Proof.
  intros H1 H2. unfold id_type_of.
  destruct (String.eqb_spec instance_type "radarr"); [done|].
  by destruct (String.eqb_spec instance_type "sonarr").
Qed.

(** X6: For an instance type other than radarr and sonarr [id_type] is never
    assigned: an empty queue still gives the empty result, a queue with
    at least one record raises [UnboundLocalError] at its first record;
    and a queue without records list raises [TypeError] whatever the
    type. *)
Theorem process_queue_unknown_type instance_type media_ids :
  instance_type <> "radarr" -> instance_type <> "sonarr" ->
  process_queue {| records := Some [] |} instance_type media_ids = Ok [] /\
  (forall r rest,
      process_queue {| records := Some (r :: rest) |} instance_type media_ids
      = Raise (UnboundLocalError "id_type")) /\
  process_queue {| records := None |} instance_type media_ids = Raise TypeError.
Proof.
  intros H1 H2. unfold process_queue. cbn [records].
  rewrite (id_type_of_other _ H1 H2).
  split; [|split; [done|done]].
  cbn [process_queue_loop]. exact (f_equal Ok elements_empty).
Qed.

(** X6, instance on the sample data. *)
Lemma process_queue_unknown_type_witness :
  "lidarr" <> "radarr" /\ "lidarr" <> "sonarr" /\
  process_queue {| records := Some [] |} "lidarr" [1%Z] = Ok [] /\
  (forall r rest,
      process_queue {| records := Some (r :: rest) |} "lidarr" [1%Z]
      = Raise (UnboundLocalError "id_type")) /\
  process_queue {| records := None |} "lidarr" [1%Z] = Raise TypeError.
Proof.
  assert (H1 : "lidarr" <> "radarr") by discriminate.
  assert (H2 : "lidarr" <> "sonarr") by discriminate.
  split; [exact H1|]. split; [exact H2|].
  exact (process_queue_unknown_type "lidarr" [1%Z] H1 H2).
Defined.

Lemma record_id_raise idt r e : record_id idt r = Raise e -> e = KeyError idt.
Proof.
  unfold record_id.
  destruct (if String.eqb idt "movieId" then movieId r else seriesId r);
    [done|]. by intros [= <-].
Qed.

Lemma process_queue_loop_key_error idt media_ids recs acc r e :
  r ∈ recs -> record_id idt r = Raise e ->
  process_queue_loop (Some idt) media_ids recs acc = Raise (KeyError idt).
Proof.
  intros Hr He. revert acc.
  induction recs as [|r0 recs IH]; intros acc; [by apply elem_of_nil in Hr|].
  simpl. destruct (record_id idt r0) as [m0|e0] eqn:Hid.
  - apply elem_of_cons in Hr as [->|Hr]; [congruence|].
    destruct (bool_decide (m0 ∈ media_ids)); by apply IH.
  - by rewrite (record_id_raise _ _ _ Hid).
Qed.

(** X7: If a record lacks the id field of the instance type and no
    record before it is about a selected item, [process_queue] raises
    [KeyError] for that field, whatever follows in the queue. *)
Theorem process_queue_missing_id pre r post media_ids :
  (movieId r = None ->
   Forall (fun r' => forall m, movieId r' = Some m -> m ∉ media_ids) pre ->
   process_queue {| records := Some (pre ++ r :: post) |} "radarr" media_ids
   = Raise (KeyError "movieId")) /\
  (seriesId r = None ->
   Forall (fun r' => forall m, seriesId r' = Some m -> m ∉ media_ids) pre ->
   process_queue {| records := Some (pre ++ r :: post) |} "sonarr" media_ids
   = Raise (KeyError "seriesId")).
Proof.
  assert (Hloop : forall idt,
    record_id idt r = Raise (KeyError idt) ->
    Forall (fun r' => forall m, record_id idt r' = Ok m -> m ∉ media_ids) pre ->
    process_queue_loop (Some idt) media_ids (pre ++ r :: post) []
    = Raise (KeyError idt)).
  { intros idt Hr Hpre. generalize (@nil QueueItem).
    induction Hpre as [|r' pre Hr' Hpre IH]; intros acc; simpl.
    - by rewrite Hr.
    - destruct (record_id idt r') as [m|e] eqn:Hid.
      + rewrite bool_decide_eq_false_2 by (by apply Hr'). apply IH.
      + by rewrite (record_id_raise _ _ _ Hid). }
  unfold process_queue. cbn [records].
  change (id_type_of "radarr") with (Some "movieId").
  change (id_type_of "sonarr") with (Some "seriesId").
  split; intros Hnone Hpre.
  - rewrite (Hloop "movieId"); [done| |].
    + unfold record_id; simpl. by rewrite Hnone.
    + eapply Forall_impl; [exact Hpre|]. intros r' Hr' m Hm.
      apply Hr'. unfold record_id in Hm; simpl in Hm.
      by destruct (movieId r') as [m'|]; [injection Hm as ->|].
  - rewrite (Hloop "seriesId"); [done| |].
    + unfold record_id; simpl. by rewrite Hnone.
    + eapply Forall_impl; [exact Hpre|]. intros r' Hr' m Hm.
      apply Hr'. unfold record_id in Hm; simpl in Hm.
      by destruct (seriesId r') as [m'|]; [injection Hm as ->|].
Qed.

(** X7, instance on the sample data: a radarr queue whose second record
    has a series id only; the first record is about movie 1, which is not
    selected. *)
Lemma process_queue_missing_id_witness :
  let r := {| movieId := None; seriesId := Some 9%Z; downloadId := "d9";
              rec_title := "Show.S01"; customFormatScore := 5 |} in
  movieId r = None /\
  Forall (fun r' => forall m, movieId r' = Some m -> m ∉ [3%Z])
    [Samples.release1] /\
  process_queue {| records := Some ([Samples.release1] ++ r :: [Samples.release3]) |}
    "radarr" [3%Z] = Raise (KeyError "movieId").
Proof.
  intros r.
  assert (Hpre : Forall (fun r' => forall m, movieId r' = Some m -> m ∉ [3%Z])
                   [Samples.release1]).
  { constructor; [|constructor]. intros m [= <-]. set_solver. }
  split; [reflexivity|]. split; [exact Hpre|].
  exact (proj1 (process_queue_missing_id [Samples.release1] r
                  [Samples.release3] [3%Z]) eq_refl Hpre).
Defined.

Lemma process_queue_loop_raise_inv idt media_ids recs acc e :
  process_queue_loop (Some idt) media_ids recs acc = Raise e ->
  e = KeyError idt /\ exists r, r ∈ recs /\ record_id idt r = Raise e.
Proof.
  revert acc. induction recs as [|r0 recs IH]; intros acc; simpl; [done|].
  destruct (record_id idt r0) as [m0|e0] eqn:Hid.
  - intros H.
    assert (Hrec : e = KeyError idt /\
              exists r, r ∈ recs /\ record_id idt r = Raise e).
    { destruct (bool_decide (m0 ∈ media_ids)); by eapply IH. }
    destruct Hrec as [-> (r & Hr & Hraise)].
    split; [done|]. exists r. split; [by right|done].
  - intros [= <-]. split; [by eapply record_id_raise|].
    exists r0. split; [by left|done].
Qed.

(** X8: When [process_queue] returns for a queue, it also returns for
    the same records in any other order, with the same associations:
    the two results are permutations of each other. *)
Theorem process_queue_order_irrelevant
    recs recs' instance_type media_ids queue_dict :
  recs ≡ₚ recs' ->
  process_queue {| records := Some recs |} instance_type media_ids
    = Ok queue_dict ->
  exists queue_dict',
    process_queue {| records := Some recs' |} instance_type media_ids
      = Ok queue_dict' /\
    queue_dict ≡ₚ queue_dict'.
Proof.
  intros Hperm. unfold process_queue. cbn [records].
  destruct (id_type_of instance_type) as [idt|].
  - destruct (process_queue_loop (Some idt) media_ids recs []) as [qd|e] eqn:H1;
      [|done].
    intros [= <-].
    destruct (process_queue_loop (Some idt) media_ids recs' []) as [qd'|e'] eqn:H2.
    + eexists. split; [done|].
      apply NoDup_Permutation; [apply NoDup_elements..|].
      intros q. unfold queue_set.
      rewrite !elem_of_elements, !elem_of_list_to_set.
      rewrite (process_queue_loop_elem _ _ _ _ _ H1 q),
        (process_queue_loop_elem _ _ _ _ _ H2 q).
      split; (intros [H|(r & i & m & Hr & Hrest)]; [by left|]);
        right; exists r, i, m; (split; [|done]).
      * by rewrite <- Hperm.
      * by rewrite Hperm.
    + apply process_queue_loop_raise_inv in H2 as [_ (r & Hr & Hraise)].
      rewrite <- Hperm in Hr.
      by rewrite (process_queue_loop_key_error _ _ _ _ _ _ Hr Hraise) in H1.
  - destruct recs as [|r recs]; [|done].
    apply Permutation_nil_l in Hperm as <-.
    intros [= <-]. by eexists.
Qed.

(** X8, instance on the sample data. *)
Lemma process_queue_order_irrelevant_witness :
  [Samples.release1; Samples.release3] ≡ₚ [Samples.release3; Samples.release1] /\
  process_queue {| records := Some [Samples.release1; Samples.release3] |}
    "radarr" [1%Z; 3%Z] = Ok [Samples.q1; Samples.q3] /\
  exists queue_dict',
    process_queue {| records := Some [Samples.release3; Samples.release1] |}
      "radarr" [1%Z; 3%Z] = Ok queue_dict' /\
    [Samples.q1; Samples.q3] ≡ₚ queue_dict'.
Proof.
  assert (H : [Samples.release1; Samples.release3]
              ≡ₚ [Samples.release3; Samples.release1])
    by apply Permutation_swap.
  assert (Hq : process_queue
                 {| records := Some [Samples.release1; Samples.release3] |}
                 "radarr" [1%Z; 3%Z] = Ok [Samples.q1; Samples.q3])
    by (vm_compute; reflexivity).
  split; [exact H|]. split; [exact Hq|].
  exact (process_queue_order_irrelevant _ _ "radarr" [1%Z; 3%Z] _ H Hq).
Defined.

Lemma process_queue_loop_length id_type media_ids recs acc queue_dict :
  process_queue_loop id_type media_ids recs acc = Ok queue_dict ->
  length queue_dict <= length acc + length recs.
Proof.
  revert acc. induction recs as [|r0 recs IH]; intros acc; simpl.
  - intros [= ->]. lia.
  - destruct id_type as [idt|]; [|done].
    destruct (record_id idt r0) as [m0|e]; [|done].
    destruct (bool_decide (m0 ∈ media_ids)); intros H; apply IH in H.
    + rewrite length_app in H. simpl in H. lia.
    + lia.
Qed.

(** X9: The result never has more associations than the queue has
    records. *)
Theorem process_queue_length queue instance_type media_ids queue_dict :
  process_queue queue instance_type media_ids = Ok queue_dict ->
  exists recs, records queue = Some recs /\
               length queue_dict <= length recs.
Proof.
  unfold process_queue.
  destruct (records queue) as [recs|]; [|done].
  destruct (process_queue_loop _ _ recs []) as [qd|e] eqn:Hloop; [|done].
  intros [= <-]. exists recs. split; [done|].
  apply process_queue_loop_length in Hloop. simpl in Hloop.
  etrans; [|exact Hloop].
  apply submseteq_length, NoDup_submseteq; [apply NoDup_elements|].
  intros q Hq. unfold queue_set in Hq.
  by rewrite elem_of_elements, elem_of_list_to_set in Hq.
Qed.

(** X9, instance on the sample data. *)
Lemma process_queue_length_witness :
  process_queue {| records := Some [Samples.release1; Samples.release1] |}
    "radarr" [1%Z] = Ok [Samples.q1] /\
  exists recs,
    Some [Samples.release1; Samples.release1] = Some recs /\
    length [Samples.q1] <= length recs.
Proof.
  assert (H : process_queue
                {| records := Some [Samples.release1; Samples.release1] |}
                "radarr" [1%Z] = Ok [Samples.q1])
    by (vm_compute; reflexivity).
  split; [exact H|].
  exact (process_queue_length _ "radarr" [1%Z] [Samples.q1] H).
Defined.

(** ** process_instance: the dry run *)

(** X10: Whatever the server answers, a dry run triggers no search, tags
    nothing, polls no command, fetches no queue and does not wait. *)
Theorem dry_run_is_read_only instance_type settings app :
  Forall (fun ev => mutates_or_waits ev = false)
    (trace (process_instance true instance_type settings app)).
Proof. unfold process_instance. simpl negb. cbv iota. repeat trace_step. Qed.

(** X11: When the three reads succeed, a dry run returns: the result carries
    the instance name, the counters of the whole library, and one entry
    per selected item, in selection order, with both torrent fields
    [None]. *)
Theorem dry_run_result instance_type settings app server media_dict tag_id :
  instance_name (remote app) = Ok server ->
  media (remote app) instance_type = Ok media_dict ->
  tag_id_of (remote app) (default "checked" (tag_name_setting settings))
    = Ok tag_id ->
  exists filtered,
    outcome (filter_media media_dict tag_id
               (default 2%Z (count_setting settings))) = Ok filtered /\
    outcome (process_instance true instance_type settings app)
    = Ok {| server_name := server;
            tagged_count :=
              Z.of_nat (length (filter (fun item => tag_id ∈ tags item)
                                  media_dict));
            untagged_count :=
              Z.of_nat (length (filter (fun item => tag_id ∉ tags item)
                                  media_dict));
            total_count := Z.of_nat (length media_dict);
            data := map dry_entry filtered |}.
Proof.
  intros Hserver Hmedia Htag.
  destruct (filter_media_total media_dict tag_id
              (default 2%Z (count_setting settings))) as [filtered Hfiltered].
  exists filtered. split; [done|].
  unfold process_instance.
  outcome_ok server. do 6 outcome_ok tt.
  outcome_ok media_dict. outcome_ok tt. outcome_ok tag_id.
  outcome_ok filtered. outcome_ok tt.
  simpl negb. cbv iota. unfold with_data, ret, outcome. simpl.
  f_equal. destruct media_dict as [|item rest]; [done|].
  rewrite count_loop_spec. simpl fst. simpl snd.
  by rewrite !Z.add_0_l.
Qed.

(** X11, instance on the sample data. *)
Lemma dry_run_result_witness :
  exists filtered,
    outcome (filter_media Samples.library 7 2) = Ok filtered /\
    outcome (process_instance true "radarr" Samples.defaults
               (Samples.app (Samples.server (Ok PyNone) (Ok Samples.empty_queue))))
    = Ok {| server_name := "radarr_1";
            tagged_count :=
              Z.of_nat (length (filter (fun item => 7%Z ∈ tags item)
                                  Samples.library));
            untagged_count :=
              Z.of_nat (length (filter (fun item => 7%Z ∉ tags item)
                                  Samples.library));
            total_count := Z.of_nat (length Samples.library);
            data := map dry_entry filtered |}.
Proof.
  apply (dry_run_result "radarr" Samples.defaults
           (Samples.app (Samples.server (Ok PyNone) (Ok Samples.empty_queue)))
           "radarr_1" Samples.library 7); reflexivity.
Defined.

(** ** process_instance: order and arguments of the mutating calls *)

Lemma elem_of_trace_bind {A B} ev (m : M A) (f : A -> M B) :
  ev ∈ trace (bind m f) ->
  ev ∈ trace m \/ exists a, outcome m = Ok a /\ ev ∈ trace (f a).
Proof.
  destruct (outcome m) as [a|e] eqn:Ho.
  - rewrite (trace_bind_ok _ _ _ Ho), elem_of_app. intros [H|H]; eauto.
  - rewrite (trace_bind_raise _ _ _ Ho). by left.
Qed.

Ltac quiet_step H Hm x Hx :=
  apply elem_of_trace_bind in H as [H|(x & Hx & H)];
  [ exfalso; simpl in H; apply list_elem_of_singleton in H; subst;
    discriminate Hm
  | simpl in Hx ].

Lemma live_run_calls dry instance_type settings app ev :
  ev ∈ trace (process_instance dry instance_type settings app) ->
  mutates_or_waits ev = true ->
  dry = false /\
  exists media_dict tag_id filtered,
    media (remote app) instance_type = Ok media_dict /\
    tag_id_of (remote app) (default "checked" (tag_name_setting settings))
      = Ok tag_id /\
    outcome (filter_media media_dict tag_id
               (default 2%Z (count_setting settings))) = Ok filtered /\
    let media_ids := map media_id filtered in
    (ev = Called (url app) (search_media media_ids) \/
     exists response,
       search_response (remote app) media_ids = Ok response /\
       truthy response = true /\
       (ev = Called (url app) (add_tags media_ids tag_id) \/
        exists response' command_id,
          add_tags_response (remote app) media_ids tag_id = Ok response' /\
          getitem response' "id" = Ok command_id /\
          (ev = Called (url app) (get_command_status command_id) \/
           exists ready,
             command_status (remote app) command_id = Ok ready /\
             (ev = Sleep 3 \/
              (truthy ready = true /\
               ev = Called (url app) (get_queue instance_type)))))).
Proof.
  intros H Hm. unfold process_instance in H.
  quiet_step H Hm server Hserver.
  do 6 (let u := fresh "u" in let Hu := fresh "Hu" in quiet_step H Hm u Hu).
  quiet_step H Hm media_dict Hmedia.
  (let u := fresh "u" in let Hu := fresh "Hu" in quiet_step H Hm u Hu).
  quiet_step H Hm tag_id Htag.
  apply elem_of_trace_bind in H as [H|(filtered & Hfiltered & H)].
  { exfalso.
    pose proof (filter_media_trace_all (fun ev => mutates_or_waits ev = false)
                  media_dict tag_id (default 2%Z (count_setting settings))
                  (fun _ => eq_refl)) as Hall.
    rewrite Forall_forall in Hall. specialize (Hall _ H). congruence. }
  (let u := fresh "u" in let Hu := fresh "Hu" in quiet_step H Hm u Hu).
  destruct dry; simpl negb in H; cbv iota in H.
  { simpl in H. by apply elem_of_nil in H. }
  split; [done|]. exists media_dict, tag_id, filtered.
  do 3 (split; [done|]). intros media_ids. fold media_ids in H.
  apply elem_of_trace_bind in H as [H|(response & Hresponse & H)].
  { left. simpl in H. by apply list_elem_of_singleton in H. }
  simpl in Hresponse. right.
  destruct (truthy response) eqn:Htruthy.
  - exists response. do 2 (split; [done|]).
    apply elem_of_trace_bind in H as [H|(response' & Hresponse' & H)].
    { left. simpl in H. by apply list_elem_of_singleton in H. }
    simpl in Hresponse'. right.
    apply elem_of_trace_bind in H as [H|(command_id & Hid & H)].
    { simpl in H. by apply elem_of_nil in H. }
    simpl in Hid. exists response', command_id. do 2 (split; [done|]).
    apply elem_of_trace_bind in H as [H|(ready & Hready & H)].
    { left. simpl in H. by apply list_elem_of_singleton in H. }
    simpl in Hready. right. exists ready. split; [done|].
    apply elem_of_trace_bind in H as [H|(slept & _ & H)].
    { left. simpl in H. by apply list_elem_of_singleton in H. }
    right. destruct (truthy ready); [|simpl in H; by apply elem_of_nil in H].
    split; [done|].
    apply elem_of_trace_bind in H as [H|(queue & Hqueue & H)].
    { simpl in H. by apply list_elem_of_singleton in H. }
    exfalso.
    apply elem_of_trace_bind in H as [H|(qd & Hqd & H)].
    { simpl in H. by apply elem_of_nil in H. }
    quiet_step H Hm u' Hu'.
    apply elem_of_trace_bind in H as [H|(entries & Hentries & H)].
    { simpl in H. by apply elem_of_nil in H. }
    simpl in H. by apply elem_of_nil in H.
  - exfalso.
    apply elem_of_trace_bind in H as [H|(response' & Hresponse' & H)].
    { simpl in H. by apply elem_of_nil in H. }
    injection Hresponse' as <-.
    destruct (falsy_getitem response "id" Htruthy) as [Hget|Hget].
    + erewrite trace_bind_raise in H by (simpl; exact Hget).
      simpl in H. by apply elem_of_nil in H.
    + erewrite trace_bind_raise in H by (simpl; exact Hget).
      simpl in H. by apply elem_of_nil in H.
Qed.

(** X12: Tagging happens only in a run that is not dry, only after the search
    trigger has answered a truthy value, and with the ids handed to the
    search trigger (the ids of the selection) and the resolved tag id. *)
Theorem tagging_follows_search dry instance_type settings app u ids t :
  Called u (add_tags ids t)
    ∈ trace (process_instance dry instance_type settings app) ->
  dry = false /\ u = url app /\
  tag_id_of (remote app) (default "checked" (tag_name_setting settings))
    = Ok t /\
  (exists media_dict filtered,
      media (remote app) instance_type = Ok media_dict /\
      outcome (filter_media media_dict t
                 (default 2%Z (count_setting settings))) = Ok filtered /\
      ids = map media_id filtered) /\
  exists response,
    search_response (remote app) ids = Ok response /\
    truthy response = true.
Proof.
  intros H. apply live_run_calls in H; [|done].
  destruct H as (-> & media_dict & tag_id & filtered & Hmedia & Htag
                 & Hfiltered & Hev).
  simpl in Hev. destruct Hev as [Hev|(response & Hresponse & Htruthy & Hev)];
    [done|].
  destruct Hev as [[= -> -> ->]|(r' & c & _ & _ & Hev)].
  - split; [done|]. split; [done|]. split; [done|].
    split; [by exists media_dict, filtered|by exists response].
  - destruct Hev as [Hev|(ready & _ & [Hev|[_ Hev]])]; done.
Qed.

Ltac in_trace :=
  vm_compute;
  repeat first [apply list_elem_of_here | apply list_elem_of_further].

(** X12, instance on the sample data. *)
Lemma tagging_follows_search_witness :
  let app := Samples.app (Samples.server (Ok Samples.command)
                            (Ok Samples.empty_queue)) in
  Called "http://radarr" (add_tags [1%Z; 3%Z] 7)
    ∈ trace (process_instance false "radarr" Samples.defaults app) /\
  false = false /\ "http://radarr" = url app /\
  tag_id_of (remote app) (default "checked" (tag_name_setting Samples.defaults))
    = Ok 7%Z /\
  (exists media_dict filtered,
      media (remote app) "radarr" = Ok media_dict /\
      outcome (filter_media media_dict 7
                 (default 2%Z (count_setting Samples.defaults))) = Ok filtered /\
      [1%Z; 3%Z] = map media_id filtered) /\
  exists response,
    search_response (remote app) [1%Z; 3%Z] = Ok response /\
    truthy response = true.
Proof.
  intros app.
  assert (H : Called "http://radarr" (add_tags [1%Z; 3%Z] 7)
                ∈ trace (process_instance false "radarr" Samples.defaults app))
    by in_trace.
  split; [exact H|].
  exact (tagging_follows_search false "radarr" Samples.defaults app
           "http://radarr" [1%Z; 3%Z] 7 H).
Defined.

(** X13: The command whose status is polled is the one named by the ['id'] of
    the answer to the tagging call: polling happens only after a truthy
    search answer and a tagging call that returned, and the answer of the
    search trigger is not what is subscripted. *)
Theorem polling_uses_tagging_answer dry instance_type settings app u c :
  Called u (get_command_status c)
    ∈ trace (process_instance dry instance_type settings app) ->
  dry = false /\ u = url app /\
  exists ids t response response',
    search_response (remote app) ids = Ok response /\
    truthy response = true /\
    add_tags_response (remote app) ids t = Ok response' /\
    getitem response' "id" = Ok c.
Proof.
  intros H. apply live_run_calls in H; [|done].
  destruct H as (-> & media_dict & tag_id & filtered & Hmedia & Htag
                 & Hfiltered & Hev).
  simpl in Hev. destruct Hev as [Hev|(response & Hresponse & Htruthy & Hev)];
    [done|].
  destruct Hev as [Hev|(r' & c' & Hr' & Hc' & Hev)]; [done|].
  destruct Hev as [[= -> ->]|(ready & _ & [Hev|[_ Hev]])]; [|done|done].
  split; [done|]. split; [done|].
  by exists (map media_id filtered), tag_id, response, r'.
Qed.

(** X13, instance on the sample data. *)
Lemma polling_uses_tagging_answer_witness :
  let app := Samples.app (Samples.server (Ok Samples.command)
                            (Ok Samples.empty_queue)) in
  Called "http://radarr" (get_command_status (PyInt 5))
    ∈ trace (process_instance false "radarr" Samples.defaults app) /\
  false = false /\ "http://radarr" = url app /\
  exists ids t response response',
    search_response (remote app) ids = Ok response /\
    truthy response = true /\
    add_tags_response (remote app) ids t = Ok response' /\
    getitem response' "id" = Ok (PyInt 5).
Proof.
  intros app.
  assert (H : Called "http://radarr" (get_command_status (PyInt 5))
                ∈ trace (process_instance false "radarr" Samples.defaults app))
    by in_trace.
  split; [exact H|].
  exact (polling_uses_tagging_answer false "radarr" Samples.defaults app
           "http://radarr" (PyInt 5) H).
Defined.

(** X14: The queue is fetched only in a run that is not dry, for the
    instance's own type, and only after the status call has answered a
    truthy value. *)
Theorem queue_fetched_only_when_ready dry instance_type settings app u ty :
  Called u (get_queue ty)
    ∈ trace (process_instance dry instance_type settings app) ->
  dry = false /\ u = url app /\ ty = instance_type /\
  exists c ready,
    command_status (remote app) c = Ok ready /\ truthy ready = true.
Proof.
  intros H. apply live_run_calls in H; [|done].
  destruct H as (-> & media_dict & tag_id & filtered & Hmedia & Htag
                 & Hfiltered & Hev).
  simpl in Hev. destruct Hev as [Hev|(response & Hresponse & Htruthy & Hev)];
    [done|].
  destruct Hev as [Hev|(r' & c' & Hr' & Hc' & Hev)]; [done|].
  destruct Hev as [Hev|(ready & Hready & [Hev|[Hr [= -> ->]]])]; [done|done|].
  do 3 (split; [done|]). by exists c', ready.
Qed.

(** X14, instance on the sample data. *)
Lemma queue_fetched_only_when_ready_witness :
  let app := Samples.app (Samples.server (Ok Samples.command)
                            (Ok Samples.empty_queue)) in
  Called "http://radarr" (get_queue "radarr")
    ∈ trace (process_instance false "radarr" Samples.defaults app) /\
  false = false /\ "http://radarr" = url app /\ "radarr" = "radarr" /\
  exists c ready,
    command_status (remote app) c = Ok ready /\ truthy ready = true.
Proof.
  intros app.
  assert (H : Called "http://radarr" (get_queue "radarr")
                ∈ trace (process_instance false "radarr" Samples.defaults app))
    by in_trace.
  split; [exact H|].
  exact (queue_fetched_only_when_ready false "radarr" Samples.defaults app
           "http://radarr" "radarr" H).
Defined.

(** ** process_instance: a command that is not ready *)

(** X15: When the status call answers a falsy value, the run still searches,
    tags and waits, but it fetches no queue: its trace is that of the dry
    run followed by the four events, and the result has the counters and
    an empty data list. *)
Theorem not_ready_gives_no_data
    instance_type settings app server media_dict tag_id filtered
    response response' command_id ready :
  instance_name (remote app) = Ok server ->
  media (remote app) instance_type = Ok media_dict ->
  tag_id_of (remote app) (default "checked" (tag_name_setting settings))
    = Ok tag_id ->
  outcome (filter_media media_dict tag_id
             (default 2%Z (count_setting settings))) = Ok filtered ->
  search_response (remote app) (map media_id filtered) = Ok response ->
  truthy response = true ->
  add_tags_response (remote app) (map media_id filtered) tag_id
    = Ok response' ->
  getitem response' "id" = Ok command_id ->
  command_status (remote app) command_id = Ok ready ->
  truthy ready = false ->
  (exists out,
      outcome (process_instance false instance_type settings app) = Ok out /\
      data out = [] /\ server_name out = server /\
      total_count out = Z.of_nat (length media_dict)) /\
  trace (process_instance false instance_type settings app)
  = trace (process_instance true instance_type settings app)
      ++ [Called (url app) (search_media (map media_id filtered));
          Called (url app) (add_tags (map media_id filtered) tag_id);
          Called (url app) (get_command_status command_id);
          Sleep 3].
Proof.
  intros Hserver Hmedia Htag Hfiltered Hsearch Htruthy Htags Hid Hstatus
    Hready.
  split.
  - destruct (outcome (process_instance false instance_type settings app))
      as [out|e] eqn:Hout.
    + exists out. split; [done|].
      pose proof Hout as Hinv.
      apply process_instance_ok_inv in Hinv
        as (server0 & media0 & tag0 & filtered0 & Hs0 & Hm0 & _ & _ & Hname
            & Htotal & _).
      rewrite Hserver in Hs0. injection Hs0 as <-.
      rewrite Hmedia in Hm0. injection Hm0 as <-.
      split; [|done].
      revert Hout. unfold process_instance.
      outcome_ok server. do 6 outcome_ok tt.
      outcome_ok media_dict. outcome_ok tt. outcome_ok tag_id.
      outcome_ok filtered. outcome_ok tt.
      simpl negb. cbv iota.
      outcome_ok response. rewrite Htruthy. outcome_ok response'.
      outcome_ok command_id. outcome_ok ready. outcome_ok tt.
      rewrite Hready. by intros [= <-].
    + exfalso. revert Hout. unfold process_instance.
      outcome_ok server. do 6 outcome_ok tt.
      outcome_ok media_dict. outcome_ok tt. outcome_ok tag_id.
      outcome_ok filtered. outcome_ok tt.
      simpl negb. cbv iota.
      outcome_ok response. rewrite Htruthy. outcome_ok response'.
      outcome_ok command_id. outcome_ok ready. outcome_ok tt.
      by rewrite Hready.
  - unfold process_instance.
    do 2 (trace_ok server). do 12 (trace_ok tt).
    do 2 (trace_ok media_dict). do 2 (trace_ok tt). do 2 (trace_ok tag_id).
    do 2 (trace_ok filtered). do 2 (trace_ok tt).
    simpl negb. cbv iota.
    trace_ok response. rewrite Htruthy. trace_ok response'.
    trace_ok command_id. trace_ok ready. trace_ok tt.
    rewrite Hready. simpl. rewrite <- !app_assoc. simpl.
    reflexivity.
Qed.

(** X15, instance on the sample data. *)
Lemma not_ready_gives_no_data_witness :
  let remote :=
    {| instance_name := Ok "radarr_1";
       media := fun _ => Ok Samples.library;
       tag_id_of := fun _ => Ok 7%Z;
       search_response := fun _ => Ok Samples.command;
       add_tags_response := fun _ _ => Ok (PyDict [("id", PyInt 5)]);
       command_status := fun _ => Ok (PyBool false);
       queue_of := fun _ => Ok Samples.empty_queue |} in
  let app := Samples.app remote in
  truthy (PyBool false) = false /\
  (exists out,
      outcome (process_instance false "radarr" Samples.defaults app) = Ok out /\
      data out = [] /\ server_name out = "radarr_1" /\
      total_count out = Z.of_nat (length Samples.library)) /\
  trace (process_instance false "radarr" Samples.defaults app)
  = trace (process_instance true "radarr" Samples.defaults app)
      ++ [Called (url app) (search_media [1%Z; 3%Z]);
          Called (url app) (add_tags [1%Z; 3%Z] 7);
          Called (url app) (get_command_status (PyInt 5));
          Sleep 3].
Proof.
  intros remote app. split; [reflexivity|].
  apply (not_ready_gives_no_data "radarr" Samples.defaults app "radarr_1"
           Samples.library 7 [Samples.item 1 []; Samples.item 3 []]
           Samples.command (PyDict [("id", PyInt 5)]) (PyInt 5) (PyBool false));
    reflexivity.
Defined.

(** ** The torrents mapping of an entry *)

Lemma dict_get_set_eq {V} k (v : V) d : Dict.get k (Dict.set k v d) = Some v.
Proof.
  induction d as [|[k' v'] d IH]; simpl.
  - by rewrite String.eqb_refl.
  - destruct (String.eqb k' k) eqn:Hk; simpl; by rewrite Hk.
Qed.

Lemma dict_get_set_ne {V} k k2 (v : V) d :
  k <> k2 -> Dict.get k2 (Dict.set k v d) = Dict.get k2 d.
Proof.
  intros Hne. induction d as [|[k' v'] d IH]; simpl.
  - by apply String.eqb_neq in Hne as ->.
  - destruct (String.eqb_spec k' k) as [->|Hk]; simpl.
    + by apply String.eqb_neq in Hne as ->.
    + by rewrite IH.
Qed.

Lemma torrents_loop_lookup item queue_dict acc t :
  Dict.get t (torrents_loop item queue_dict acc)
  = match last (filter (fun q => q_media_id q = media_id item /\ torrent q = t)
                  queue_dict) with
    | Some q => Some (PyInt (torrent_custom_format_score q))
    | None => Dict.get t acc
    end.
Proof.
  revert acc. induction queue_dict as [|q rest IH]; intros acc; simpl; [done|].
  destruct (Z.eqb_spec (media_id item) (q_media_id q)) as [Hid|Hid].
  - destruct (decide (torrent q = t)) as [Ht|Ht].
    + rewrite filter_cons_True by done. rewrite last_cons, IH.
      destruct (last _); [done|]. subst t. apply dict_get_set_eq.
    + rewrite filter_cons_False by tauto. rewrite IH.
      destruct (last _); [done|]. by apply dict_get_set_ne.
  - rewrite filter_cons_False by (intros [? _]; congruence). apply IH.
Qed.

(** X16: Looking a release title up in the torrents mapping of an item gives
    the score of the last element of [queue_dict] that is about this item
    and has this title, and nothing when there is none: of two
    associations of one item with the same title only the later score is
    kept. *)
Theorem torrents_mapping_lookup item queue_dict t :
  Dict.get t (torrents_loop item queue_dict [])
  = (fun q => PyInt (torrent_custom_format_score q))
      <$> last (filter (fun q => q_media_id q = media_id item /\ torrent q = t)
                  queue_dict).
Proof. rewrite torrents_loop_lookup. by destruct (last _). Qed.

(** ** Reports of a run that is not dry *)

Lemma live_data_inv instance_type settings app out :
  outcome (process_instance false instance_type settings app) = Ok out ->
  exists filtered queue_dict, data_loop filtered queue_dict [] = Ok (data out).
Proof.
  unfold process_instance. intros H.
  bind_inv H server Hserver. do 6 skip_unit H.
  bind_inv H media_dict Hmedia. skip_unit H.
  bind_inv H tag_id Htag. bind_inv H filtered Hfiltered. skip_unit H.
  simpl negb in H. cbv iota in H.
  bind_inv H response Hresponse. bind_inv H response' Hresponse'.
  bind_inv H command_id Hid. bind_inv H ready Hready. skip_unit H.
  destruct (truthy ready).
  - bind_inv H queue Hqueue. bind_inv H queue_dict Hqd. skip_unit H.
    bind_inv H entries Hentries. injection H as <-.
    by exists filtered, queue_dict.
  - injection H as <-. by exists [], [].
Qed.

Lemma data_loop_reconciled filtered queue_dict entries :
  data_loop filtered queue_dict [] = Ok entries ->
  Forall reconciled_entry entries.
Proof.
  destruct (last queue_dict) as [ql|] eqn:Hlast.
  - rewrite (data_loop_spec _ _ _ _ Hlast). intros [= <-]. simpl.
    apply Forall_map, Forall_forall. intros item Hitem.
    apply list_elem_of_filter in Hitem as [Hmatch _].
    exists item, (torrents_loop item queue_dict []), ql. split; [done|].
    pose proof (torrents_loop_truthy item queue_dict []) as Ht.
    rewrite Hmatch in Ht. intros Heq. by rewrite Heq in Ht.
  - apply last_None in Hlast as ->. rewrite data_loop_empty_queue.
    intros [= <-]. constructor.
Qed.

Lemma for_each_log_ok {A} (msg : A -> LogMsg) (l : list A) :
  outcome (for_each (fun x => log INFO (msg x)) l) = Ok tt.
Proof.
  induction l as [|x l IH]; [done|]. simpl.
  by rewrite (outcome_bind_ok _ _ tt).
Qed.

Lemma print_item_reconciled entry :
  reconciled_entry entry -> outcome (print_item entry) = Ok tt.
Proof.
  intros (item & torrents & qi & -> & _). unfold print_item.
  outcome_ok (PyStr (title item)). outcome_ok (PyInt (year item)).
  outcome_ok tt. outcome_ok (PyDict torrents). outcome_ok torrents.
  rewrite (outcome_bind_ok _ _ tt); [done|apply for_each_log_ok].
Qed.

Lemma for_each_print_item_reconciled entries :
  Forall reconciled_entry entries ->
  outcome (for_each print_item entries) = Ok tt.
Proof.
  induction 1 as [|e es He Hes IH]; [done|]. simpl.
  by rewrite (outcome_bind_ok _ _ tt (print_item_reconciled e He)).
Qed.

Lemma print_instance_reconciled e :
  Forall reconciled_entry (data (snd e)) -> outcome (print_instance e) = Ok tt.
Proof.
  destruct e as [instance out]. unfold print_instance. simpl.
  intros Hall. apply for_each_print_item_reconciled in Hall.
  destruct (data out) as [|entry entries]; [done|].
  by outcome_ok tt.
Qed.

Lemma notification_item_reconciled entry :
  reconciled_entry entry ->
  exists lines, notification_item entry = ([], Ok lines) /\
                NoUpgradesLine ∉ lines.
Proof.
  intros (item & torrents & qi & -> & Hne).
  destruct torrents as [|p ts]; [done|].
  eexists. split; [reflexivity|].
  intros Hin. apply elem_of_cons in Hin as [Hin|Hin]; [done|].
  apply list_elem_of_In, in_map_iff in Hin as (x & Hx & _). done.
Qed.

Lemma server_list_loop_reconciled entries acc :
  Forall reconciled_entry entries ->
  Forall (fun block => NoUpgradesLine ∉ block) acc ->
  exists blocks,
    server_list_loop entries acc = ([], Ok blocks) /\
    Forall (fun block => NoUpgradesLine ∉ block) blocks /\
    length blocks = length acc + length entries.
Proof.
  intros Hall. revert acc.
  induction Hall as [|e es He Hes IH]; intros acc Hacc; simpl.
  - exists acc. split; [done|]. split; [done|lia].
  - destruct (notification_item_reconciled e He) as (lines & -> & Hlines).
    change (@pair (list Event) (Outcome (list Line)) [] (Ok lines))
      with (ret lines).
    rewrite bind_ret_l.
    destruct (IH (acc ++ [lines])) as (blocks & -> & Hblocks & Hlen).
    { apply Forall_app. split; [done|]. by apply Forall_singleton. }
    exists blocks. split; [done|]. split; [done|].
    rewrite length_app in Hlen. simpl in *. lia.
Qed.

Lemma fields_loop_reconciled outs fields :
  Forall (fun e => Forall reconciled_entry (data (snd e))) outs ->
  Forall (fun f => Forall (fun block => NoUpgradesLine ∉ block) (snd f)) fields ->
  exists fields',
    fields_loop outs fields = ([], Ok fields') /\
    map fst fields'
    = map fst fields
        ++ map (fun e => server_name (snd e))
             (filter (fun e => has_data e = true) outs) /\
    Forall (fun f => Forall (fun block => NoUpgradesLine ∉ block) (snd f)) fields'.
Proof.
  intros Hall. revert fields.
  induction Hall as [|[instance out] outs He Houts IH]; intros fields Hfields;
    cbn [fields_loop].
  - exists fields. split; [done|]. split; [|done]. simpl. by rewrite app_nil_r.
  - simpl in He.
    destruct (server_list_loop_reconciled (data out) [] He)
      as (blocks & -> & Hblocks & Hlen); [constructor|].
    change (@pair (list Event) (Outcome (list (list Line))) [] (Ok blocks))
      with (ret blocks).
    rewrite bind_ret_l.
    destruct blocks as [|b bs].
    + destruct (IH fields Hfields) as (fields' & -> & Hnames & Hgood).
      exists fields'. split; [done|]. split; [|done].
      rewrite filter_cons_False; [done|].
      unfold has_data; simpl. destruct (data out); [done|]. simpl in Hlen. lia.
    + destruct (IH (fields ++ [(server_name out, b :: bs)]))
        as (fields' & -> & Hnames & Hgood).
      { apply Forall_app. split; [done|]. by apply Forall_singleton. }
      exists fields'. split; [done|]. split; [|done].
      rewrite filter_cons_True.
      * rewrite Hnames, map_app. simpl. by rewrite <- app_assoc.
      * unfold has_data; simpl. destruct (data out); [|done].
        simpl in Hlen. lia.
Qed.

Lemma live_results_reconciled outs :
  live_results outs ->
  Forall (fun e => Forall reconciled_entry (data (snd e))) outs.
Proof.
  intros Hlive. eapply Forall_impl; [exact Hlive|].
  intros [instance out] (ty & settings & app & H).
  apply live_data_inv in H as (filtered & qd & H).
  by eapply data_loop_reconciled.
Qed.

Lemma print_output_reconciled outs :
  Forall (fun e => Forall reconciled_entry (data (snd e))) outs ->
  outcome (print_output outs) = Ok tt.
Proof.
  unfold print_output.
  induction 1 as [|e es He Hes IH]; [done|]. simpl.
  by rewrite (outcome_bind_ok _ _ tt (print_instance_reconciled e He)).
Qed.

Lemma notification_of_fields dry outs fields :
  fields_loop outs [] = ([], Ok fields) ->
  notification dry outs
  = ([Discord fields (if dry then "__**Dry Run**__" else "")], Ok tt).
Proof.
  intros Hf. unfold notification. rewrite Hf.
  change (@pair (list Event) (Outcome (list (string * list (list Line))))
            [] (Ok fields)) with (ret fields).
  by rewrite bind_ret_l.
Qed.

(** X17: The results of a run that is not dry always render: [print_output]
    returns, and [notification] sends exactly one message, with one field
    for each instance that has entries, in order and named after the
    server; no entry ever produces the "no upgrades found" line, since
    every entry has at least one torrent. *)
Theorem live_results_render outs :
  live_results outs ->
  outcome (print_output outs) = Ok tt /\
  exists fields,
    notification false outs = ([Discord fields ""], Ok tt) /\
    map fst fields
    = map (fun e => server_name (snd e))
        (filter (fun e => has_data e = true) outs) /\
    Forall (fun f => Forall (fun block => NoUpgradesLine ∉ block) (snd f))
      fields.
Proof.
  intros Hlive. apply live_results_reconciled in Hlive as Hall.
  split; [by apply print_output_reconciled|].
  destruct (fields_loop_reconciled outs [] Hall) as (fields & Hf & Hn & Hg);
    [constructor|].
  exists fields. split; [|done].
  by apply notification_of_fields.
Qed.

(** X17, instance on the sample data. *)
Lemma live_results_render_witness :
  let out :=
    {| server_name := "radarr_1"; tagged_count := 1; untagged_count := 2;
       total_count := 3;
       data := [[("media_id", PyInt 1); ("title", PyStr "Film");
                 ("year", PyInt 2020);
                 ("torrents", PyDict [("Film.One.1080p", PyInt 10)]);
                 ("torrent_custom_format_score", PyInt 10)]] |} in
  let outs := [("radarr_1", out)] in
  live_results outs /\
  outcome (print_output outs) = Ok tt /\
  exists fields,
    notification false outs = ([Discord fields ""], Ok tt) /\
    map fst fields
    = map (fun e => server_name (snd e))
        (filter (fun e => has_data e = true) outs) /\
    Forall (fun f => Forall (fun block => NoUpgradesLine ∉ block) (snd f))
      fields.
Proof.
  intros out outs.
  assert (H : live_results outs).
  { constructor; [|constructor].
    exists "radarr", Samples.defaults,
      (Samples.app (Samples.server (Ok Samples.command) (Ok Samples.queue1))).
    vm_compute. reflexivity. }
  split; [exact H|].
  exact (live_results_render outs H).
Defined.

(** ** main: whole runs *)

Lemma dict_set_Forall {V} (P : V -> Prop) k v (d : list (string * V)) :
  Forall (fun e => P (snd e)) d -> P v ->
  Forall (fun e => P (snd e)) (Dict.set k v d).
Proof.
  intros Hd Hv. induction Hd as [|[k' v'] d Hk Hd IH]; simpl.
  - by repeat constructor.
  - destruct (String.eqb k' k); constructor; done.
Qed.

Lemma dict_set_nonempty {V} k (v : V) d : Dict.set k v d <> [].
Proof. destruct d as [|[k' v'] d]; simpl; [done|]. by destruct (String.eqb k' k). Qed.

Lemma for_each_trace {A} (P : Event -> Prop) (f : A -> M unit) l :
  (forall x, Forall P (trace (f x))) -> Forall P (trace (for_each f l)).
Proof.
  intros Hf. induction l as [|x l IH]; simpl; [constructor|].
  apply Forall_trace_bind; [apply Hf|]. intros _ _. apply IH.
Qed.

Lemma print_output_no_discord outs :
  Forall (fun ev => is_discord ev = false) (trace (print_output outs)).
Proof.
  unfold print_output. apply for_each_trace. intros [instance out].
  unfold print_instance.
  destruct (data out) as [|entry entries]; [by repeat constructor|].
  apply Forall_trace_bind; [by repeat constructor|]. intros _ _.
  apply for_each_trace. intros item. unfold print_item.
  do 5 (apply Forall_trace_bind; [by repeat constructor|]; intros ? _).
  apply Forall_trace_bind; [|intros _ _; by repeat constructor].
  apply for_each_trace. intros p. by repeat constructor.
Qed.

Lemma reports_discord ev : reports ev = false -> is_discord ev = false.
Proof. by destruct ev. Qed.

Section Runs.
Variable world : string -> string -> Remote.
Variable cfg : Config.

Lemma run_jobs_no_discord js final :
  Forall (fun ev => is_discord ev = false) (trace (run_jobs world cfg js final)).
Proof.
  revert final. induction js as [|j js IH]; intros final; simpl.
  - constructor.
  - apply Forall_trace_bind; [|intros o _; apply IH].
    eapply Forall_impl; [apply process_instance_no_reports|].
    apply reports_discord.
Qed.

Lemma run_jobs_ok js final0 :
  Forall (fun j => exists o, outcome (run_job world cfg j) = Ok o) js ->
  exists final,
    outcome (run_jobs world cfg js final0) = Ok final /\
    trace (run_jobs world cfg js final0)
    = concat (map (fun j => trace (run_job world cfg j)) js).
Proof.
  intros Hjs. revert final0.
  induction Hjs as [|j js [o Ho] Hjs IH]; intros final0; simpl.
  - by exists final0.
  - destruct (IH (Dict.set (job_instance j) o final0)) as (final & Hout & Htr).
    exists final.
    by rewrite (outcome_bind_ok _ _ _ Ho), (trace_bind_ok _ _ _ Ho), Hout, Htr.
Qed.

Lemma run_jobs_inv (P : OutputDict -> Prop) js final0 final :
  (forall j o, outcome (run_job world cfg j) = Ok o -> P o) ->
  Forall (fun e => P (snd e)) final0 ->
  outcome (run_jobs world cfg js final0) = Ok final ->
  Forall (fun e => P (snd e)) final /\
  (js <> [] \/ final0 <> [] -> final <> []).
Proof.
  intros HP. revert final0.
  induction js as [|j js IH]; intros final0 H0; simpl.
  - intros [= <-]. split; [done|]. by intros [?|?].
  - intros H. apply bind_ok_inv in H as (o & Ho & H).
    apply IH in H as [Hall Hne].
    + split; [done|]. intros _. apply Hne. right. apply dict_set_nonempty.
    + apply dict_set_Forall; [done|]. by eapply HP.
Qed.

Lemma banner_eta : banner cfg = (trace (banner cfg), Ok tt).
Proof. unfold banner. by destruct (dry_run cfg). Qed.

(** X18: When instances are configured for the script but none of their names
    occurs in the instance configuration, the run contacts no server,
    prints nothing, sends no notification and ends normally. *)
Theorem main_without_matching_instance insts :
  instances cfg = Some insts ->
  insts <> [] ->
  jobs (instances_config cfg) insts = [] ->
  main world cfg
  = (trace (banner cfg) ++ [Log DEBUG (Dump "final_output_dict")], Ok tt).
Proof.
  intros Hinsts Hne Hjobs. unfold main.
  rewrite banner_eta, Hinsts. cbn [trace fst].
  destruct insts as [|i rest]; [done|].
  by rewrite type_loop_run_jobs, Hjobs.
Qed.

(** X19: In a dry run in which every instance is processed without error and
    the final dictionary has an instance with at least one selected
    item, [main] ends with [KeyError: 'torrents'] raised by
    [print_output]; the notification is never sent. *)
Theorem dry_run_main_raises insts final :
  dry_run cfg = true ->
  instances cfg = Some insts ->
  insts <> [] ->
  outcome (type_loop world cfg (instances_config cfg) insts []) = Ok final ->
  Exists (fun e => has_data e = true) final ->
  outcome (main world cfg) = Raise (KeyError "torrents") /\
  Forall (fun ev => is_discord ev = false) (trace (main world cfg)).
Proof.
  intros Hdry Hinsts Hne Hloop Hex.
  assert (Hfinal : Forall (fun e => exists filtered,
                     data (snd e) = map dry_entry filtered) final).
  { rewrite type_loop_run_jobs in Hloop.
    eapply (run_jobs_inv (fun o => exists filtered,
                            data o = map dry_entry filtered)); [| |exact Hloop].
    - intros j o Ho. unfold run_job in Ho. rewrite Hdry in Ho.
      apply process_instance_ok_inv in Ho
        as (_ & _ & _ & filtered & _ & _ & _ & _ & _ & _ & _ & _ & Hdata).
      exists filtered. by apply Hdata.
    - constructor. }
  assert (Hex' : Exists (fun e => data (snd e) <> []) final).
  { eapply Exists_impl; [exact Hex|].
    intros [k o]. unfold has_data. simpl. by destruct (data o). }
  pose proof (print_output_dry final Hfinal Hex') as Hprint.
  assert (Hfinal_ne : final <> []).
  { intros ->. by apply Exists_nil in Hex. }
  unfold main. split.
  - rewrite (outcome_bind_ok _ _ tt (banner_ok cfg)), Hinsts.
    destruct insts as [|i rest]; [done|].
    rewrite (outcome_bind_ok _ _ _ Hloop).
    rewrite (outcome_bind_ok _ _ tt) by reflexivity.
    destruct final as [|e es]; [done|].
    by apply outcome_bind_raise.
  - apply Forall_trace_bind.
    { unfold banner. destruct (dry_run cfg); by repeat constructor. }
    intros _ _. rewrite Hinsts.
    destruct insts as [|i rest]; [done|].
    apply Forall_trace_bind.
    { rewrite type_loop_run_jobs. apply run_jobs_no_discord. }
    intros final' Hfinal'. rewrite Hloop in Hfinal'. injection Hfinal' as <-.
    apply Forall_trace_bind; [by repeat constructor|]. intros _ _.
    destruct final as [|e es]; [done|].
    erewrite trace_bind_raise by exact Hprint.
    apply print_output_no_discord.
Qed.

(** X20: In a run that is not dry and in which every instance is processed
    without error, [main] ends normally; the instances are processed one
    after the other in the order of the instance configuration (type by
    type, and within a type in the order of the script's instances), then
    the results are printed, and the single notification is the last
    event. *)
Theorem live_main_reports_once insts :
  dry_run cfg = false ->
  instances cfg = Some insts ->
  insts <> [] ->
  jobs (instances_config cfg) insts <> [] ->
  Forall (fun j => exists o, outcome (run_job world cfg j) = Ok o)
    (jobs (instances_config cfg) insts) ->
  outcome (main world cfg) = Ok tt /\
  exists final fields,
    outcome (type_loop world cfg (instances_config cfg) insts []) = Ok final /\
    trace (main world cfg)
    = concat (map (fun j => trace (run_job world cfg j))
                (jobs (instances_config cfg) insts))
        ++ [Log DEBUG (Dump "final_output_dict")]
        ++ trace (print_output final)
        ++ [Discord fields ""] /\
    Forall (fun ev => is_discord ev = false) (trace (print_output final)) /\
    Forall (fun j => Forall (fun ev => is_discord ev = false)
                       (trace (run_job world cfg j)))
      (jobs (instances_config cfg) insts).
Proof.
  intros Hdry Hinsts Hne Hjobs Hok.
  destruct (run_jobs_ok _ [] Hok) as (final & Hout & Htrace).
  assert (Hlive : Forall (fun e => Forall reconciled_entry (data (snd e))) final
                  /\ final <> []).
  { destruct (run_jobs_inv (fun o => Forall reconciled_entry (data o))
                (jobs (instances_config cfg) insts) [] final)
      as [Hall Hnonempty]; [| |exact Hout|].
    - intros j o Ho. unfold run_job in Ho. rewrite Hdry in Ho.
      apply live_data_inv in Ho as (filtered & qd & Ho).
      by eapply data_loop_reconciled.
    - constructor.
    - split; [done|]. apply Hnonempty. by left. }
  destruct Hlive as [Hall Hfinal_ne].
  pose proof (print_output_reconciled final Hall) as Hprint.
  destruct (fields_loop_reconciled final [] Hall) as (fields & Hf & _ & _);
    [constructor|].
  pose proof (notification_of_fields false final fields Hf) as Hnotif.
  assert (Hbanner : banner cfg = ([], Ok tt)).
  { unfold banner. by rewrite Hdry. }
  rewrite <- type_loop_run_jobs in Hout, Htrace.
  split; [|exists final, fields; split; [done|]; split; [|split]].
  - unfold main. rewrite Hbanner, Hinsts. outcome_ok tt.
    destruct insts as [|i rest]; [done|].
    rewrite (outcome_bind_ok _ _ _ Hout).
    rewrite (outcome_bind_ok _ _ tt) by reflexivity.
    destruct final as [|e es]; [done|].
    rewrite (outcome_bind_ok _ _ tt Hprint).
    by rewrite Hdry, Hnotif.
  - unfold main. rewrite Hbanner, Hinsts. trace_ok tt.
    destruct insts as [|i rest]; [done|].
    rewrite (trace_bind_ok _ _ _ Hout), Htrace.
    rewrite (trace_bind_ok _ _ tt) by reflexivity.
    destruct final as [|e es]; [done|].
    rewrite (trace_bind_ok _ _ tt Hprint).
    by rewrite Hdry, Hnotif.
  - apply print_output_no_discord.
  - apply Forall_forall. intros j _.
    eapply Forall_impl; [apply process_instance_no_reports|].
    apply reports_discord.
Qed.
End Runs.

(** X18, instance on the sample data. *)
Lemma main_without_matching_instance_witness :
  instances Samples.unmatched_instance = Some [("radarr_2", Samples.defaults)] /\
  jobs (instances_config Samples.unmatched_instance)
    [("radarr_2", Samples.defaults)] = [] /\
  main Samples.good_world Samples.unmatched_instance
  = (trace (banner Samples.unmatched_instance)
       ++ [Log DEBUG (Dump "final_output_dict")], Ok tt).
Proof.
  split; [reflexivity|]. split; [reflexivity|].
  apply (main_without_matching_instance Samples.good_world
           Samples.unmatched_instance [("radarr_2", Samples.defaults)]);
    [reflexivity|discriminate|reflexivity].
Defined.

(** X19, instance on the sample data. *)
Lemma dry_run_main_raises_witness :
  let final :=
    [("radarr_1",
      {| server_name := "radarr_1"; tagged_count := 1; untagged_count := 2;
         total_count := 3;
         data := map dry_entry [Samples.item 1 []; Samples.item 3 []] |})] in
  outcome (type_loop Samples.good_world Samples.dry_instance
             (instances_config Samples.dry_instance)
             [("radarr_1", Samples.defaults)] []) = Ok final /\
  Exists (fun e => has_data e = true) final /\
  outcome (main Samples.good_world Samples.dry_instance)
    = Raise (KeyError "torrents") /\
  Forall (fun ev => is_discord ev = false)
    (trace (main Samples.good_world Samples.dry_instance)).
Proof.
  intros final.
  assert (Hloop : outcome (type_loop Samples.good_world Samples.dry_instance
                    (instances_config Samples.dry_instance)
                    [("radarr_1", Samples.defaults)] []) = Ok final)
    by reflexivity.
  assert (Hex : Exists (fun e => has_data e = true) final)
    by (constructor; reflexivity).
  split; [exact Hloop|]. split; [exact Hex|].
  apply (dry_run_main_raises Samples.good_world Samples.dry_instance
           [("radarr_1", Samples.defaults)] final);
    [reflexivity|reflexivity|discriminate|exact Hloop|exact Hex].
Defined.

(** X20, instance on the sample data. *)
Lemma live_main_reports_once_witness :
  let js := jobs (instances_config Samples.live_instance)
              [("radarr_1", Samples.defaults)] in
  Forall (fun j => exists o,
            outcome (run_job Samples.good_world Samples.live_instance j) = Ok o)
    js /\
  outcome (main Samples.good_world Samples.live_instance) = Ok tt /\
  exists final fields,
    outcome (type_loop Samples.good_world Samples.live_instance
               (instances_config Samples.live_instance)
               [("radarr_1", Samples.defaults)] []) = Ok final /\
    trace (main Samples.good_world Samples.live_instance)
    = concat (map (fun j => trace (run_job Samples.good_world
                                     Samples.live_instance j)) js)
        ++ [Log DEBUG (Dump "final_output_dict")]
        ++ trace (print_output final)
        ++ [Discord fields ""] /\
    Forall (fun ev => is_discord ev = false) (trace (print_output final)) /\
    Forall (fun j => Forall (fun ev => is_discord ev = false)
                       (trace (run_job Samples.good_world
                                 Samples.live_instance j))) js.
Proof.
  intros js.
  assert (Hok : Forall (fun j => exists o,
            outcome (run_job Samples.good_world Samples.live_instance j) = Ok o)
            js).
  { constructor; [|constructor]. eexists. vm_compute. reflexivity. }
  split; [exact Hok|].
  apply (live_main_reports_once Samples.good_world Samples.live_instance
           [("radarr_1", Samples.defaults)]);
    [reflexivity|reflexivity|discriminate|discriminate|exact Hok].
Defined.

(** ** process_instance: size of the result, failing calls *)

Lemma data_loop_length filtered queue_dict entries :
  data_loop filtered queue_dict [] = Ok entries ->
  length entries <= length filtered.
Proof.
  destruct (last queue_dict) as [ql|] eqn:Hlast.
  - rewrite (data_loop_spec _ _ _ _ Hlast). intros [= <-]. simpl.
    rewrite length_map. apply length_filter.
  - apply last_None in Hlast as ->. rewrite data_loop_empty_queue.
    intros [= <-]. simpl. lia.
Qed.

Lemma process_instance_data_length dry instance_type settings app out :
  outcome (process_instance dry instance_type settings app) = Ok out ->
  exists media_dict tag_id filtered,
    outcome (filter_media media_dict tag_id
               (default 2%Z (count_setting settings))) = Ok filtered /\
    length (data out) <= length filtered.
Proof.
  unfold process_instance. intros H.
  bind_inv H server Hserver. do 6 skip_unit H.
  bind_inv H media_dict Hmedia. skip_unit H.
  bind_inv H tag_id Htag. bind_inv H filtered Hfiltered. skip_unit H.
  exists media_dict, tag_id, filtered. split; [done|].
  destruct dry; simpl negb in H; cbv iota in H.
  - injection H as <-. simpl. by rewrite length_map.
  - bind_inv H response Hresponse. bind_inv H response' Hresponse'.
    bind_inv H command_id Hid. bind_inv H ready Hready. skip_unit H.
    destruct (truthy ready).
    + bind_inv H queue Hqueue. bind_inv H queue_dict Hqd. skip_unit H.
      bind_inv H entries Hentries. injection H as <-. simpl.
      by eapply data_loop_length.
    + injection H as <-. simpl. lia.
Qed.

(** X21: With a limit that is not negative, the result of an instance, dry or
    not, never lists more than [count] items (2 when the setting is
    absent). *)
Theorem result_has_at_most_count_entries
    dry instance_type settings app out :
  (0 <= default 2 (count_setting settings))%Z ->
  outcome (process_instance dry instance_type settings app) = Ok out ->
  (Z.of_nat (length (data out)) <= default 2 (count_setting settings))%Z.
Proof.
  intros Hcount H.
  apply process_instance_data_length in H
    as (media_dict & tag_id & filtered & Hfiltered & Hlen).
  rewrite filter_media_nonneg in Hfiltered by done.
  injection Hfiltered as <-. rewrite length_take in Hlen. lia.
Qed.

(** X21, instance on the sample data. *)
Lemma result_has_at_most_count_entries_witness :
  let app := Samples.app (Samples.server (Ok Samples.command)
                            (Ok Samples.queue13)) in
  (0 <= default 2 (count_setting Samples.defaults))%Z /\
  exists out,
    outcome (process_instance false "radarr" Samples.defaults app) = Ok out /\
    (Z.of_nat (length (data out)) <= default 2 (count_setting Samples.defaults))%Z.
Proof.
  intros app.
  assert (Hcount : (0 <= default 2 (count_setting Samples.defaults))%Z)
    by (simpl; lia).
  split; [exact Hcount|].
  eexists. split; [vm_compute; reflexivity|].
  apply (result_has_at_most_count_entries false "radarr" Samples.defaults app);
    [exact Hcount|vm_compute; reflexivity].
Defined.

(** X22: An exception raised by the search trigger, by the tagging call, by
    the status call or by the queue fetch ends [process_instance] with
    that same exception. *)
Theorem client_failure_propagates
    instance_type settings app server media_dict filtered tag_id e :
  instance_name (remote app) = Ok server ->
  media (remote app) instance_type = Ok media_dict ->
  tag_id_of (remote app) (default "checked" (tag_name_setting settings))
    = Ok tag_id ->
  outcome (filter_media media_dict tag_id
             (default 2%Z (count_setting settings))) = Ok filtered ->
  (search_response (remote app) (map media_id filtered) = Raise e \/
   exists response,
     search_response (remote app) (map media_id filtered) = Ok response /\
     truthy response = true /\
     (add_tags_response (remote app) (map media_id filtered) tag_id = Raise e \/
      exists response' command_id,
        add_tags_response (remote app) (map media_id filtered) tag_id
          = Ok response' /\
        getitem response' "id" = Ok command_id /\
        (command_status (remote app) command_id = Raise e \/
         exists ready,
           command_status (remote app) command_id = Ok ready /\
           truthy ready = true /\
           queue_of (remote app) instance_type = Raise e))) ->
  outcome (process_instance false instance_type settings app) = Raise e.
Proof.
  intros Hserver Hmedia Htag Hfiltered Hfail.
  destruct Hfail as [Hs|(response & Hs & Ht & Hfail)].
  { by eapply search_failure_propagates. }
  destruct Hfail as [Ha|(response' & command_id & Ha & Hid & Hfail)].
  { by eapply add_tags_failure_propagates. }
  destruct Hfail as [Hc|(ready & Hc & Hr & Hq)].
  { by eapply command_status_failure_propagates. }
  by eapply get_queue_failure_propagates.
Qed.

(** X22, instance on the sample data. *)
Lemma client_failure_propagates_witness :
  let app := Samples.app (Samples.server (Raise (RemoteError "search refused"))
                            (Ok Samples.empty_queue)) in
  search_response (remote app) [1%Z; 3%Z] = Raise (RemoteError "search refused") /\
  outcome (process_instance false "radarr" Samples.defaults app)
    = Raise (RemoteError "search refused").
Proof.
  intros app. split; [reflexivity|].
  apply (client_failure_propagates "radarr" Samples.defaults app "radarr_1"
           Samples.library [Samples.item 1 []; Samples.item 3 []] 7);
    [reflexivity|reflexivity|reflexivity|reflexivity|].
  left. reflexivity.
Defined.
